(** * lambda_function.py: weather snapshot fetch, key resolution and upload

    A shallow embedding of [src/lambda_function.py].  Python values are
    modelled as the code handles them: [str] as a list of Unicode code
    points, the structure returned by [xmltodict.parse] as a tree of
    [str]/[None]/[dict]/[list], a Python [dict] as an association list in
    insertion order, exceptions as values of a result type, and the side
    effects (HTTP GET, [print], [time.sleep], the two S3 calls) as events
    appended to a trace by a small state-and-exception monad. *)

From Stdlib Require Import List NArith ZArith Bool Lia String Ascii Decimal.
From Stdlib.Strings Require Import Byte.
From Stdlib Require DecimalPos DecimalZ.
Import ListNotations.

Set Warnings "-register-all".

Local Open Scope N_scope.

(** ** Python strings *)

(** A Python [str] is a sequence of code points. *)
Definition pystr := list N.

(** An ASCII literal of the source. *)
Definition py (s : string) : pystr :=
  List.map N_of_ascii (list_ascii_of_string s).

Fixpoint str_eqb (a b : pystr) : bool :=
  match a, b with
  | [], [] => true
  | x :: a', y :: b' => (x =? y) && str_eqb a' b'
  | _, _ => false
  end.

(** [s[len(p):]] when [s] starts with [p]. *)
Fixpoint strip_prefix (p s : pystr) : option pystr :=
  match p, s with
  | [], _ => Some s
  | x :: p', y :: s' => if x =? y then strip_prefix p' s' else None
  | _ :: _, [] => None
  end.

Definition startswith (s p : pystr) : bool :=
  match strip_prefix p s with Some _ => true | None => false end.

(** [sep.join(parts)] *)
Fixpoint join (sep : pystr) (parts : list pystr) : pystr :=
  match parts with
  | [] => []
  | [p] => p
  | p :: rest => p ++ sep ++ join sep rest
  end.

(** Decimal rendering, [str(n)] for an [int]. *)
Fixpoint str_of_uint (d : Decimal.uint) : pystr :=
  match d with
  | Nil => []
  | D0 d' => 48 :: str_of_uint d'
  | D1 d' => 49 :: str_of_uint d'
  | D2 d' => 50 :: str_of_uint d'
  | D3 d' => 51 :: str_of_uint d'
  | D4 d' => 52 :: str_of_uint d'
  | D5 d' => 53 :: str_of_uint d'
  | D6 d' => 54 :: str_of_uint d'
  | D7 d' => 55 :: str_of_uint d'
  | D8 d' => 56 :: str_of_uint d'
  | D9 d' => 57 :: str_of_uint d'
  end.

Definition str_of_int (z : Z) : pystr :=
  match Z.to_int z with
  | Decimal.Pos d => str_of_uint d
  | Decimal.Neg d => 45 :: str_of_uint d
  end.

(** [format(n, "0{w}d")] for a non-negative [n]: zero padding on the left. *)
Definition zero_pad (w : nat) (n : N) : pystr :=
  let digits := str_of_uint (N.to_uint n) in
  List.repeat 48 (w - List.length digits) ++ digits.

(** ** Decoded documents *)

(** What [xmltodict.parse] builds: text, [None] for an empty element, a
    mapping per element and a list for a repeated element.  A [dict] keeps
    its pairs in insertion order. *)
Inductive pyval : Type :=
| PNone : pyval
| PStr (s : pystr) : pyval
| PList (items : list pyval) : pyval
| PDict (pairs : list (pystr * pyval)) : pyval.

Definition pydict := list (pystr * pyval).

(** [d.get(k)] *)
Fixpoint dict_get (d : pydict) (k : pystr) : option pyval :=
  match d with
  | [] => None
  | (k', v) :: d' => if str_eqb k' k then Some v else dict_get d' k
  end.

(** [d[k] = v]: an existing key keeps its position, a new one goes last. *)
Fixpoint dict_set (d : pydict) (k : pystr) (v : pyval) : pydict :=
  match d with
  | [] => [(k, v)]
  | (k', v') :: d' =>
      if str_eqb k' k then (k', v) :: d' else (k', v') :: dict_set d' k v
  end.

(** [dict(pairs)] *)
Definition dict_of_pairs (pairs : list (pystr * pyval)) : pydict :=
  fold_left (fun d kv => dict_set d (fst kv) (snd kv)) pairs [].

(** Truth value of an object in an [if]. *)
Definition truthy (v : pyval) : bool :=
  match v with
  | PNone => false
  | PStr s => negb (str_eqb s [])
  | PList l => match l with [] => false | _ => true end
  | PDict d => match d with [] => false | _ => true end
  end.

(** [v == 'literal'] *)
Definition eq_str (v : pyval) (lit : pystr) : bool :=
  match v with
  | PStr s => str_eqb s lit
  | _ => false
  end.

(** ** Exceptions *)

(** An instance of [requests.exceptions.RequestException].  The three flags
    say which of the classes named by the [except] clauses it is also an
    instance of; [exc_message] is [str(e)]. *)
Record request_exception : Type := {
  is_HTTPError : bool;
  is_ConnectionError : bool;
  is_Timeout : bool;
  exc_message : pystr
}.

Inductive exn : Type :=
| RequestException (e : request_exception)
| ExpatError (msg : pystr)
| UnboundLocalError (name : pystr)
| KeyError (key : pystr)
| TypeError (msg : pystr)
| ValueError (msg : pystr)
| UnicodeEncodeError (code_point : N)
| OtherException (cls : pystr) (msg : pystr).

Inductive outcome (A : Type) : Type :=
| Return (a : A)
| Raise (e : exn).
Arguments Return {A} a.
Arguments Raise {A} e.

(** ** Effects *)

Definition params_t := list (pystr * (pystr + Z)).
Definition bytes := list byte.

Inductive event : Type :=
| EvGet (url : pystr) (params : params_t)
| EvPrint (line : pystr)
| EvPrintExc (e : exn)
| EvSleep (seconds : Z)
| EvList (bucket prefix : pystr)
| EvPut (bucket key : pystr) (body : bytes).

Definition trace := list event.

Definition is_get (ev : event) : bool :=
  match ev with EvGet _ _ => true | _ => false end.

Definition is_put (ev : event) : bool :=
  match ev with EvPut _ _ _ => true | _ => false end.

(** Number of HTTP GET calls made so far. *)
Definition http_calls (tr : trace) : nat := List.length (List.filter is_get tr).

Definition put_calls (tr : trace) : nat := List.length (List.filter is_put tr).

(** A computation reads the trace so far and returns a value or raises,
    together with the extended trace. *)
Definition M (A : Type) : Type := trace -> outcome A * trace.

Definition ret {A} (a : A) : M A := fun tr => (Return a, tr).

Definition raise {A} (e : exn) : M A := fun tr => (Raise e, tr).

Definition lift {A} (o : outcome A) : M A := fun tr => (o, tr).

Definition bind {A B} (m : M A) (k : A -> M B) : M B :=
  fun tr =>
    match m tr with
    | (Return a, tr') => k a tr'
    | (Raise e, tr') => (Raise e, tr')
    end.

Definition emit (ev : event) : M unit := fun tr => (Return tt, tr ++ [ev]).

(** [try: m  except ...: h e] where [h] re-raises what no clause names. *)
Definition try_except {A} (m : M A) (h : exn -> M A) : M A :=
  fun tr =>
    match m tr with
    | (Return a, tr') => (Return a, tr')
    | (Raise e, tr') => h e tr'
    end.

Declare Scope py_scope.
Delimit Scope py_scope with py.
Notation "x <- m ;; k" := (bind m (fun x => k))
  (at level 61, m at next level, right associativity) : py_scope.
Notation "m ;;; k" := (bind m (fun _ => k))
  (at level 61, right associativity) : py_scope.

Local Open Scope py_scope.

(** ** The encoder: [json.dumps] and [str.encode('UTF-8')] *)

Module Json.

(** One lower-case hexadecimal digit. *)
Definition hex_digit (d : N) : N := if d <? 10 then 48 + d else 87 + d.

(** ['{0:04x}'.format(n)], used by the encoder below 0x10000 only. *)
Definition hex4 (n : N) : pystr :=
  [hex_digit (n / 4096 mod 16); hex_digit (n / 256 mod 16);
   hex_digit (n / 16 mod 16); hex_digit (n mod 16)].

(** The replacement of one character by [json.encoder]'s
    [py_encode_basestring_ascii]: backslash and quote are escaped, printable
    ASCII is kept, the five short escapes, and [\uXXXX] for the rest, with a
    surrogate pair above the basic plane. *)
Definition escape_char (c : N) : pystr :=
  if c =? 92 then [92; 92]
  else if c =? 34 then [92; 34]
  else if (32 <=? c) && (c <=? 126) then [c]
  else if c =? 8 then [92; 98]
  else if c =? 12 then [92; 102]
  else if c =? 10 then [92; 110]
  else if c =? 13 then [92; 114]
  else if c =? 9 then [92; 116]
  else if c <? 0x10000 then 92 :: 117 :: hex4 c
  else
    let n := c - 0x10000 in
    let s1 := N.lor 0xd800 (N.land (N.shiftr n 10) 0x3ff) in
    let s2 := N.lor 0xdc00 (N.land n 0x3ff) in
    (92 :: 117 :: hex4 s1) ++ (92 :: 117 :: hex4 s2).

Definition encode_basestring_ascii (s : pystr) : pystr :=
  34 :: flat_map escape_char s ++ [34].

(** [json.dumps(v)] with the default separators [', '] and [': '] and
    [ensure_ascii=True]. *)
Fixpoint dumps (v : pyval) : pystr :=
  match v with
  | PNone => py "null"
  | PStr s => encode_basestring_ascii s
  | PList items =>
      91 :: join (py ", ") (List.map dumps items) ++ [93]
  | PDict pairs =>
      123 :: join (py ", ")
               (List.map (fun kv => match kv with
                                    | (k, x) => encode_basestring_ascii k
                                                ++ py ": " ++ dumps x
                                    end) pairs)
          ++ [125]
  end.

(** *** The decoder used to read a payload back: [json.loads] *)

Definition is_ws (c : N) : bool :=
  (c =? 32) || (c =? 9) || (c =? 10) || (c =? 13).

Fixpoint skip_ws (s : pystr) : pystr :=
  match s with
  | c :: s' => if is_ws c then skip_ws s' else s
  | [] => []
  end.

Definition hex_value (c : N) : option N :=
  if (48 <=? c) && (c <=? 57) then Some (c - 48)
  else if (97 <=? c) && (c <=? 102) then Some (c - 87)
  else if (65 <=? c) && (c <=? 70) then Some (c - 55)
  else None.

Definition decode_uXXXX (s : pystr) : option (N * pystr) :=
  match s with
  | a :: b :: c :: d :: rest =>
      match hex_value a, hex_value b, hex_value c, hex_value d with
      | Some x3, Some x2, Some x1, Some x0 =>
          Some (((x3 * 16 + x2) * 16 + x1) * 16 + x0, rest)
      | _, _, _, _ => None
      end
  | _ => None
  end.

(** The table [BACKSLASH] of [json.decoder]. *)
Definition backslash (e : N) : option N :=
  if e =? 34 then Some 34
  else if e =? 92 then Some 92
  else if e =? 47 then Some 47
  else if e =? 98 then Some 8
  else if e =? 102 then Some 12
  else if e =? 110 then Some 10
  else if e =? 114 then Some 13
  else if e =? 116 then Some 9
  else None.

Definition option_cons (c : N) (r : option (pystr * pystr)) :
  option (pystr * pystr) :=
  match r with
  | Some (s, rest) => Some (c :: s, rest)
  | None => None
  end.

(** [scanstring] (strict): the input is positioned after the opening quote;
    the result is the decoded string and the input after the closing
    quote.  A high surrogate escape directly followed by a low surrogate
    escape is joined into one code point. *)
Fixpoint scanstring (fuel : nat) (s : pystr) : option (pystr * pystr) :=
  match fuel with
  | O => None
  | S fuel' =>
      match s with
      | [] => None
      | c :: s1 =>
          if c =? 34 then Some ([], s1)
          else if c =? 92 then
            match s1 with
            | [] => None
            | e :: s2 =>
                if e =? 117 then
                  match decode_uXXXX s2 with
                  | None => None
                  | Some (uni, s3) =>
                      if (0xd800 <=? uni) && (uni <=? 0xdbff) then
                        match s3 with
                        | b :: u :: s4 =>
                            if (b =? 92) && (u =? 117) then
                              match decode_uXXXX s4 with
                              | None => None
                              | Some (uni2, s5) =>
                                  if (0xdc00 <=? uni2) && (uni2 <=? 0xdfff)
                                  then
                                    option_cons
                                      (0x10000 +
                                       N.lor (N.shiftl (uni - 0xd800) 10)
                                             (uni2 - 0xdc00))
                                      (scanstring fuel' s5)
                                  else option_cons uni (scanstring fuel' s3)
                              end
                            else option_cons uni (scanstring fuel' s3)
                        | _ => option_cons uni (scanstring fuel' s3)
                        end
                      else option_cons uni (scanstring fuel' s3)
                  end
                else
                  match backslash e with
                  | Some ch => option_cons ch (scanstring fuel' s2)
                  | None => None
                  end
            end
          else if c <? 32 then None
          else option_cons c (scanstring fuel' s1)
      end
  end.

(** The loop of [JSONObject] once a key's opening quote has been read:
    key, colon, value, then [}] or a comma and the next key. *)
Fixpoint object_pairs (value : pystr -> option (pyval * pystr))
    (fuel : nat) (s : pystr) (acc : list (pystr * pyval)) :
    option (pyval * pystr) :=
  match fuel with
  | O => None
  | S fuel' =>
      match scanstring (List.length s) s with
      | None => None
      | Some (key, s1) =>
          match skip_ws s1 with
          | c :: s2 =>
              if c =? 58 then
                match value (skip_ws s2) with
                | None => None
                | Some (x, s3) =>
                    let acc' := acc ++ [(key, x)] in
                    match skip_ws s3 with
                    | d :: s4 =>
                        if d =? 125 then
                          Some (PDict (dict_of_pairs acc'), s4)
                        else if d =? 44 then
                          match skip_ws s4 with
                          | q :: s5 =>
                              if q =? 34
                              then object_pairs value fuel' s5 acc'
                              else None
                          | [] => None
                          end
                        else None
                    | [] => None
                    end
                end
              else None
          | [] => None
          end
      end
  end.

(** The loop of [JSONArray] positioned at a value. *)
Fixpoint array_items (value : pystr -> option (pyval * pystr))
    (fuel : nat) (s : pystr) (acc : list pyval) : option (pyval * pystr) :=
  match fuel with
  | O => None
  | S fuel' =>
      match value s with
      | None => None
      | Some (x, s1) =>
          let acc' := acc ++ [x] in
          match skip_ws s1 with
          | d :: s2 =>
              if d =? 93 then Some (PList acc', s2)
              else if d =? 44 then array_items value fuel' (skip_ws s2) acc'
              else None
          | [] => None
          end
      end
  end.

(** [scan_once] on the fragment of JSON the encoder can emit: strings,
    [null], objects and arrays.  (Numbers, [true] and [false] never occur
    in a payload: [xmltodict.parse] yields text only.) *)
Fixpoint scan_once (fuel : nat) (s : pystr) : option (pyval * pystr) :=
  match fuel with
  | O => None
  | S fuel' =>
      match s with
      | [] => None
      | c :: s1 =>
          if c =? 34 then
            match scanstring (List.length s1) s1 with
            | Some (str, rest) => Some (PStr str, rest)
            | None => None
            end
          else if c =? 123 then
            match skip_ws s1 with
            | q :: s2 =>
                if q =? 125 then Some (PDict [], s2)
                else if q =? 34
                then object_pairs (scan_once fuel') (List.length s2) s2 []
                else None
            | [] => None
            end
          else if c =? 91 then
            match skip_ws s1 with
            | q :: s2 =>
                if q =? 93 then Some (PList [], s2)
                else array_items (scan_once fuel') (List.length s1)
                       (q :: s2) []
            | [] => None
            end
          else if c =? 110 then
            match strip_prefix (py "ull") s1 with
            | Some rest => Some (PNone, rest)
            | None => None
            end
          else None
      end
  end.

(** [JSONDecoder.decode]: one value, surrounded by optional whitespace and
    followed by nothing else. *)
Definition decode (s : pystr) : option pyval :=
  match scan_once (S (List.length s)) (skip_ws s) with
  | Some (v, rest) =>
      match skip_ws rest with
      | [] => Some v
      | _ :: _ => None
      end
  | None => None
  end.

End Json.

(** *** UTF-8 *)

Definition byte_of_N (n : N) : byte :=
  match Byte.of_N n with
  | Some b => b
  | None => x00
  end.

(** The UTF-8 bytes of one code point; a surrogate cannot be encoded. *)
Definition utf8_encode_char (c : N) : outcome bytes :=
  if c <? 0x80 then Return [byte_of_N c]
  else if c <? 0x800 then
    Return [byte_of_N (0xC0 + c / 64); byte_of_N (0x80 + c mod 64)]
  else if (0xD800 <=? c) && (c <=? 0xDFFF) then Raise (UnicodeEncodeError c)
  else if c <? 0x10000 then
    Return [byte_of_N (0xE0 + c / 4096); byte_of_N (0x80 + c / 64 mod 64);
            byte_of_N (0x80 + c mod 64)]
  else
    Return [byte_of_N (0xF0 + c / 262144);
            byte_of_N (0x80 + c / 4096 mod 64);
            byte_of_N (0x80 + c / 64 mod 64); byte_of_N (0x80 + c mod 64)].

(** [s.encode('UTF-8')] *)
Fixpoint str_encode_utf8 (s : pystr) : outcome bytes :=
  match s with
  | [] => Return []
  | c :: s' =>
      match utf8_encode_char c with
      | Raise e => Raise e
      | Return bs =>
          match str_encode_utf8 s' with
          | Raise e => Raise e
          | Return rest => Return (bs ++ rest)
          end
      end
  end.

Definition is_continuation (b : N) : bool := (0x80 <=? b) && (b <? 0xC0).

(** [b.decode('utf-8')]: shortest-form sequences of one to four bytes. *)
Fixpoint bytes_decode_utf8 (bs : list N) : option pystr :=
  match bs with
  | [] => Some []
  | b0 :: r0 =>
      if b0 <? 0x80 then option_map (cons b0) (bytes_decode_utf8 r0)
      else if (0xC2 <=? b0) && (b0 <? 0xE0) then
        match r0 with
        | b1 :: r1 =>
            if is_continuation b1
            then option_map (cons ((b0 - 0xC0) * 64 + (b1 - 0x80)))
                   (bytes_decode_utf8 r1)
            else None
        | _ => None
        end
      else if (0xE0 <=? b0) && (b0 <? 0xF0) then
        match r0 with
        | b1 :: b2 :: r2 =>
            let c := ((b0 - 0xE0) * 64 + (b1 - 0x80)) * 64 + (b2 - 0x80) in
            if is_continuation b1 && is_continuation b2 && (0x800 <=? c)
               && negb ((0xD800 <=? c) && (c <=? 0xDFFF))
            then option_map (cons c) (bytes_decode_utf8 r2)
            else None
        | _ => None
        end
      else if (0xF0 <=? b0) && (b0 <? 0xF5) then
        match r0 with
        | b1 :: b2 :: b3 :: r3 =>
            let c := (((b0 - 0xF0) * 64 + (b1 - 0x80)) * 64 + (b2 - 0x80)) * 64
                     + (b3 - 0x80) in
            if is_continuation b1 && is_continuation b2 && is_continuation b3
               && (0x10000 <=? c) && (c <? 0x110000)
            then option_map (cons c) (bytes_decode_utf8 r3)
            else None
        | _ => None
        end
      else None
  end.

(** [json.loads(payload)] for a UTF-8 byte payload. *)
Definition json_loads (payload : bytes) : option pyval :=
  match bytes_decode_utf8 (List.map Byte.to_N payload) with
  | Some s => Json.decode s
  | None => None
  end.

(** [process_weather_data], lines 107-112. *)
Definition process_weather_data (weather_data : pyval) : outcome bytes :=
  let encoded_data := str_encode_utf8 (Json.dumps weather_data) in
  encoded_data.

(** ** The collaborators of one invocation *)

(** A [requests.Response] as the code uses it: [res.text], and what
    [res.raise_for_status()] does, [Some msg] when it raises an
    [HTTPError] with that message (the library's reading of the status
    line: it does so for the error statuses). *)
Record response : Type := {
  text : pystr;
  raise_for_status : option pystr
}.

Record date : Type := { year : N; month : N; day : N }.

Record s3_object : Type := { Key : pystr }.

(** The reply of [list_objects_v2]: ['Contents'] is absent when no key
    matches the prefix. *)
Record list_objects_response : Type := {
  Contents : option (list s3_object);
  IsTruncated : bool
}.

(** What the outside world answers during one run: the outcome of the
    [n]-th [requests.get] (counting from 0), the XML decoder, the clock
    and the storage client. *)
Record env : Type := {
  requests_get : nat -> pystr -> params_t -> outcome response;
  xmltodict_parse : pystr -> pyval + pystr;
  datetime_now : date;
  list_objects_v2 : pystr -> pystr -> outcome list_objects_response;
  put_object : pystr -> pystr -> bytes -> outcome unit
}.

(** Module-level configuration read from the process environment. *)
Record aws_config : Type := {
  bucket_name : pystr;
  prefix : pystr
}.

Record config : Type := {
  WEATHER_OPENAPI_URL : pystr;
  WEATHER_OPENAPI_PARAMS : params_t;
  AWS_CONFIG : aws_config
}.

(** [AWS_CONFIG['file_key']], line 35. *)
Definition file_key : pystr := py "lambda_weather_data_test".

Record handler_result : Type := { statusCode : Z; body : pystr }.

(** Sequencing of computations that only return or raise. *)
Definition bindo {A B} (o : outcome A) (k : A -> outcome B) : outcome B :=
  match o with
  | Return a => k a
  | Raise e => Raise e
  end.

(** [v[k]] for a string key. *)
Definition subscript (v : pyval) (k : pystr) : outcome pyval :=
  match v with
  | PDict d =>
      match dict_get d k with
      | Some x => Return x
      | None => Raise (KeyError k)
      end
  | PNone => Raise (TypeError (py "'NoneType' object is not subscriptable"))
  | PStr _ => Raise (TypeError (py "string indices must be integers"))
  | PList _ =>
      Raise (TypeError (py "list indices must be integers or slices, not str"))
  end.

(** The sequence a [for] statement walks over. *)
Definition iterate (v : pyval) : outcome (list pyval) :=
  match v with
  | PList l => Return l
  | PDict d => Return (List.map (fun kv => PStr (fst kv)) d)
  | PStr s => Return (List.map (fun c => PStr [c]) s)
  | PNone => Raise (TypeError (py "'NoneType' object is not iterable"))
  end.

(** The seven [if item['category'] == ...] statements of lines 83-103, in
    source order: category code and the field it fills. *)
Definition category_fields : list (pystr * pystr) :=
  [(py "PTY", py "pty"); (py "REH", py "reh"); (py "SKY", py "sky");
   (py "TMN", py "tmn"); (py "TMX", py "tmx"); (py "VEC", py "vec");
   (py "WSD", py "wsd")].

(** One such statement. *)
Definition category_clause (item : pyval) (weather_data : pydict)
    (cf : pystr * pystr) : outcome pydict :=
  bindo (subscript item (py "category")) (fun c =>
  if eq_str c (fst cf) then
    bindo (subscript item (py "fcstValue")) (fun v =>
    Return (dict_set weather_data (snd cf) v))
  else Return weather_data).

Fixpoint for_each {A S : Type} (body : A -> S -> outcome S) (l : list A)
    (s : S) : outcome S :=
  match l with
  | [] => Return s
  | a :: l' => bindo (body a s) (for_each body l')
  end.

(** The body of the [for item in ...] loop. *)
Definition item_body (item : pyval) (weather_data : pydict) : outcome pydict :=
  for_each (fun cf wd => category_clause item wd cf) category_fields
    weather_data.

(** Lines 77-105, for a bound [dict_data]. *)
Definition extract_weather_data (dict_data : pyval) : outcome pyval :=
  if truthy dict_data then
    bindo (subscript dict_data (py "response")) (fun r =>
    bindo (subscript r (py "body")) (fun b =>
    bindo (subscript b (py "items")) (fun i =>
    bindo (subscript i (py "item")) (fun it =>
    bindo (iterate it) (fun items =>
    bindo (for_each item_body items []) (fun weather_data =>
    Return (PDict weather_data)))))))
  else Return PNone.

Definition http_error (msg : pystr) : request_exception :=
  {| is_HTTPError := true; is_ConnectionError := false; is_Timeout := false;
     exc_message := msg |}.

(** The line an [except] clause of lines 65-72 prints: the first clause
    whose class the exception is an instance of decides. *)
Definition failure_line (r : request_exception) : pystr :=
  if is_HTTPError r then py "Http Error: " ++ exc_message r
  else if is_ConnectionError r then py "Error Connecting: " ++ exc_message r
  else if is_Timeout r then py "Timeout Error: " ++ exc_message r
  else py "Something Else: " ++ exc_message r.

(** How a [for] loop in a function body ends. *)
Inductive loop_exit : Type :=
| Returned (v : pyval)
| Exhausted (dict_data : option pyval).

Section Program.

Variable E : env.

(** The Unicode table behind [\d] and [int()]: the decimal value of a code
    point that is a decimal digit. *)
Variable unicode_decimal : N -> option Z.

Definition print (line : pystr) : M unit := emit (EvPrint line).

(** [time.sleep] refuses a negative length. *)
Definition time_sleep (seconds : Z) : M unit :=
  if (seconds <? 0)%Z
  then raise (ValueError (py "sleep length must be non-negative"))
  else emit (EvSleep seconds).

Definition http_get (url : pystr) (params : params_t) : M response :=
  fun tr =>
    (requests_get E (http_calls tr) url params, tr ++ [EvGet url params]).

Definition res_raise_for_status (res : response) : M unit :=
  match raise_for_status res with
  | Some msg => raise (RequestException (http_error msg))
  | None => ret tt
  end.

Definition parse (xml_data : pystr) : M pyval :=
  match xmltodict_parse E xml_data with
  | inl d => ret d
  | inr msg => raise (ExpatError msg)
  end.

(** Lines 58-63: the [try] suite, which ends in [return dict_data]. *)
Definition try_suite (url : pystr) (params : params_t) : M pyval :=
  res <- http_get url params ;;
  res_raise_for_status res ;;;
  let xml_data := text res in
  dict_data <- parse xml_data ;;
  ret dict_data.

(** Lines 65-72: the four handlers; anything else propagates. *)
Definition except_clauses (e : exn) : M unit :=
  match e with
  | RequestException r => print (failure_line r)
  | _ => raise e
  end.

(** Lines 56-75.  [dict_data] is the local of that name, unbound ([None])
    on entry; the only assignment to it is followed by [return]. *)
Fixpoint retry_loop (url : pystr) (params : params_t) (interval : Z)
    (n : nat) (dict_data : option pyval) : M loop_exit :=
  match n with
  | O => ret (Exhausted dict_data)
  | S n' =>
      r <- try_except (d <- try_suite url params ;; ret (Some d))
             (fun e => except_clauses e ;;; ret None) ;;
      match r with
      | Some d => ret (Returned d)
      | None =>
          time_sleep interval ;;;
          retry_loop url params interval n' dict_data
      end
  end.

(** [get_weather_data], lines 40-105. *)
Definition get_weather_data (url : pystr) (params : params_t)
    (max_retries interval : Z) : M pyval :=
  x <- retry_loop url params interval (Z.to_nat max_retries) None ;;
  match x with
  | Returned dict_data => ret dict_data
  | Exhausted None => raise (UnboundLocalError (py "dict_data"))
  | Exhausted (Some dict_data) => lift (extract_weather_data dict_data)
  end.

(** *** The key resolver *)

(** [\d] *)
Definition re_digit (c : N) : bool :=
  match unicode_decimal c with Some _ => true | None => false end.

(** [$] without [re.MULTILINE]: the end of the string, or just before a
    newline that is its last character. *)
Definition re_dollar (s : pystr) : bool :=
  match s with
  | [] => true
  | [c] => c =? 10
  | _ => false
  end.

(** [(\d+)$], greedy with backtracking: the captured digits. *)
Fixpoint re_digits_dollar (s : pystr) : option pystr :=
  match s with
  | [] => None
  | c :: s' =>
      if re_digit c then
        match re_digits_dollar s' with
        | Some ds => Some (c :: ds)
        | None => if re_dollar s' then Some [c] else None
        end
      else None
  end.

(** [(?:_(\d+))?$] on the rest of the key: [None] is no match,
    [Some None] a match in which group 1 did not take part. *)
Definition re_suffix (rest : pystr) : option (option pystr) :=
  let with_group :=
    match rest with
    | c :: rest' => if c =? 95 then re_digits_dollar rest' else None
    | [] => None
    end in
  match with_group with
  | Some ds => Some (Some ds)
  | None => if re_dollar rest then Some None else None
  end.

(** [pattern.match(key)] for the pattern of line 147, whose first part is
    [file_name] taken literally ([re.escape]). *)
Definition pattern_match (file_name key : pystr) : option (option pystr) :=
  match strip_prefix file_name key with
  | Some rest => re_suffix rest
  | None => None
  end.

(** [int(s)] on a string of decimal digits, the only strings the pattern
    captures.  (An object key has at most 1024 bytes, far below the length
    at which the interpreter refuses the conversion.) *)
Fixpoint int_digits (s : pystr) (acc : Z) : outcome Z :=
  match s with
  | [] => Return acc
  | c :: s' =>
      match unicode_decimal c with
      | Some d => int_digits s' (10 * acc + d)%Z
      | None => Raise (ValueError (py "invalid literal for int() with base 10"))
      end
  end.

Definition int (s : pystr) : outcome Z :=
  match s with
  | [] => Raise (ValueError (py "invalid literal for int() with base 10"))
  | _ :: _ => int_digits s 0%Z
  end.

(** The list comprehension of lines 151-152. *)
Fixpoint existing_numbers_of (file_name : pystr) (contents : list s3_object) :
    outcome (list Z) :=
  match contents with
  | [] => Return []
  | obj :: contents' =>
      match pattern_match file_name (Key obj) with
      | Some (Some g) =>
          if negb (str_eqb g []) then
            bindo (int g) (fun n =>
            bindo (existing_numbers_of file_name contents') (fun ns =>
            Return (n :: ns)))
          else existing_numbers_of file_name contents'
      | _ => existing_numbers_of file_name contents'
      end
  end.

(** [max(l, default=d)] *)
Definition max_default (l : list Z) (d : Z) : Z :=
  match l with
  | [] => d
  | x :: l' => fold_left Z.max l' x
  end.

(** [datetime.now().strftime("%Y%m%d")] *)
Definition strftime_Ymd (d : date) : pystr :=
  zero_pad 4 (year d) ++ zero_pad 2 (month d) ++ zero_pad 2 (day d).

Definition s3_list_objects_v2 (bucket prefix : pystr) :
    M list_objects_response :=
  fun tr => (list_objects_v2 E bucket prefix, tr ++ [EvList bucket prefix]).

Definition s3_put_object (bucket key : pystr) (body : bytes) : M unit :=
  fun tr => (put_object E bucket key body, tr ++ [EvPut bucket key body]).

(** [all_objects.get('Contents', [])] *)
Definition contents_or_empty (r : list_objects_response) : list s3_object :=
  match Contents r with
  | Some l => l
  | None => []
  end.

(** [get_existing_filename], lines 140-158. *)
Definition get_existing_filename (bucket file_name : pystr) : M pystr :=
  let today_str := strftime_Ymd (datetime_now E) in
  let file_name := file_name ++ py "_" ++ today_str in
  all_objects <- s3_list_objects_v2 bucket file_name ;;
  existing_numbers <-
    lift (existing_numbers_of file_name (contents_or_empty all_objects)) ;;
  let max_number := max_default existing_numbers 0%Z in
  let next_number := (max_number + 1)%Z in
  let new_file_name := file_name ++ py "_" ++ str_of_int next_number in
  ret new_file_name.

(** [upload_file_to_s3], lines 114-138. *)
Definition upload_file_to_s3 (bucket prefix file_name : pystr)
    (encoded_data : bytes) : M bool :=
  let full_file_name := prefix ++ file_name in
  new_file_name <- get_existing_filename bucket full_file_name ;;
  try_except
    (s3_put_object bucket new_file_name encoded_data ;;; ret true)
    (fun e => emit (EvPrintExc e) ;;; ret false).

(** Lines 170-181: the result object for the outcome of the upload.  The
    two words printed are the Korean for success and failure. *)
Definition report (result : bool) : M handler_result :=
  if result then
    print [0xC131; 0xACF5] ;;;
    ret {| statusCode := 200;
           body := Json.dumps (PStr (py "Upload Success")) |}
  else
    print [0xC2E4; 0xD328] ;;;
    ret {| statusCode := 400;
           body := Json.dumps (PStr (py "Upload Fail")) |}.

(** [lambda_handler], lines 161-181; [get_weather_data] is called with its
    defaults [max_retries=10] and [interval=3]. *)
Definition lambda_handler (cfg : config) : M handler_result :=
  weather_data <- get_weather_data (WEATHER_OPENAPI_URL cfg)
                    (WEATHER_OPENAPI_PARAMS cfg) 10 3 ;;
  encoded_data <- lift (process_weather_data weather_data) ;;
  result <- upload_file_to_s3 (bucket_name (AWS_CONFIG cfg))
              (prefix (AWS_CONFIG cfg)) file_key encoded_data ;;
  report result.

End Program.

(** ** The storage service behind [list_objects_v2] *)

(** Keys come back in ascending order, at most [MaxKeys] per reply; the
    code passes no [MaxKeys], so the service default of 1000 applies. *)
Definition MaxKeys : nat := 1000.

Fixpoint str_ltb (a b : pystr) : bool :=
  match a, b with
  | _, [] => false
  | [], _ :: _ => true
  | x :: a', y :: b' => (x <? y) || ((x =? y) && str_ltb a' b')
  end.

Fixpoint ascending (keys : list pystr) : bool :=
  match keys with
  | k1 :: ((k2 :: _) as rest) => str_ltb k1 k2 && ascending rest
  | _ => true
  end.

(** The first page of a prefix listing of a bucket whose keys are [store],
    held in ascending order. *)
Definition first_page (store : list pystr) (key_prefix : pystr) :
    list_objects_response :=
  let matching := List.filter (fun k => startswith k key_prefix) store in
  {| Contents := match matching with
                 | [] => None
                 | _ :: _ => Some (List.map Build_s3_object
                                     (List.firstn MaxKeys matching))
                 end;
     IsTruncated := Nat.ltb MaxKeys (List.length matching) |}.

(** ** Vocabulary of the properties *)

(** The decimal digits of ASCII. *)
Definition ascii_decimal (c : N) : option Z :=
  if (48 <=? c) && (c <=? 57) then Some (Z.of_N (c - 48)) else None.

(** An attempt fails when [requests.get] raises a request-layer exception
    or the response's [raise_for_status] raises [HTTPError]. *)
Definition failure_of (o : outcome response) : option request_exception :=
  match o with
  | Raise (RequestException r) => Some r
  | Raise _ => None
  | Return res => option_map http_error (raise_for_status res)
  end.

(** What one failed attempt leaves in the trace. *)
Definition failed_attempt (url : pystr) (params : params_t) (interval : Z)
    (r : request_exception) : trace :=
  [EvGet url params; EvPrint (failure_line r); EvSleep interval].

(** The trace of [n] failed attempts in a row, the first being GET number
    [first] of the run; [r i] is the failure of GET number [i]. *)
Definition failed_attempts (url : pystr) (params : params_t) (interval : Z)
    (r : nat -> request_exception) (first n : nat) : trace :=
  flat_map (fun i => failed_attempt url params interval (r i))
    (List.seq first n).



(** [n] is the decimal value of a string of digits. *)
Fixpoint digits_value (unicode_decimal : N -> option Z) (ds : pystr)
    (acc : Z) : option Z :=
  match ds with
  | [] => Some acc
  | c :: ds' =>
      match unicode_decimal c with
      | Some d => digits_value unicode_decimal ds' (10 * acc + d)%Z
      | None => None
      end
  end.

(** [key] is [dated_base], an underscore and a non-empty run of decimal
    digits of value [n], up to the final newline that [$] tolerates. *)
Definition has_suffix (unicode_decimal : N -> option Z)
    (dated_base key : pystr) (n : Z) : Prop :=
  exists ds eol,
    key = dated_base ++ 95 :: ds ++ eol /\ ds <> [] /\
    digits_value unicode_decimal ds 0%Z = Some n /\
    (eol = [] \/ eol = [10]).

Definition ascii_only (s : pystr) : Prop := Forall (fun c => c < 128) s.

(** A Unicode scalar value: a code point that is not a surrogate. *)
Definition scalar_value (c : N) : Prop :=
  c < 0x110000 /\ ~ (0xD800 <= c <= 0xDFFF).

(** A mapping of string fields to string values as a [dict] holds it: keys
    pairwise distinct, every string a sequence of scalar values. *)
Definition well_formed_mapping (m : list (pystr * pystr)) : Prop :=
  NoDup (List.map fst m) /\
  Forall (fun kv => Forall scalar_value (fst kv) /\
                    Forall scalar_value (snd kv)) m.

Definition mapping_value (m : list (pystr * pystr)) : pyval :=
  PDict (List.map (fun kv => (fst kv, PStr (snd kv))) m).

(** The JSON text of the members of an object after the first one, then
    the closing brace and whatever follows. *)
Fixpoint members_tail (m : list (pystr * pystr)) (rest : pystr) : pystr :=
  match m with
  | [] => 125 :: rest
  | (k, v) :: m' =>
      44 :: 32 :: 34 :: flat_map Json.escape_char k
         ++ 34 :: 58 :: 32 :: 34 :: flat_map Json.escape_char v
         ++ 34 :: members_tail m' rest
  end.

(** The value found by following a path of keys through nested mappings. *)
Fixpoint lookup_path (path : list pystr) (v : pyval) : option pyval :=
  match path with
  | [] => Some v
  | k :: path' =>
      match v with
      | PDict d =>
          match dict_get d k with
          | Some x => lookup_path path' x
          | None => None
          end
      | _ => None
      end
  end.

(** An item as the provider sends it: a mapping that holds a category
    code and a forecast value. *)
Definition item_fields (item : pyval) (category : pystr) (value : pyval) :
    Prop :=
  exists fields,
    item = PDict fields /\
    dict_get fields (py "category") = Some (PStr category) /\
    dict_get fields (py "fcstValue") = Some value.

(** The snapshot field a category code fills, if it is a recognized
    one. *)
Definition field_of (category : pystr) : option pystr :=
  match List.find (fun cf => str_eqb category (fst cf)) category_fields with
  | Some cf => Some (snd cf)
  | None => None
  end.

(** The value of the last of the (category, value) rows whose category is
    [code]. *)
Fixpoint last_value (code : pystr) (rows : list (pystr * pyval)) :
    option pyval :=
  match rows with
  | [] => None
  | (c, v) :: rest =>
      match last_value code rest with
      | Some x => Some x
      | None => if str_eqb c code then Some v else None
      end
  end.

Definition item_list_path : list pystr :=
  [py "response"; py "body"; py "items"; py "item"].



(** What a digit table must satisfy to be the Unicode one: below 128 the
    decimal digits are those of ASCII, and a decimal value is never
    negative. *)
Definition decimal_table_ok (unicode_decimal : N -> option Z) : Prop :=
  (forall c, c < 128 -> unicode_decimal c = ascii_decimal c) /\
  (forall c d, unicode_decimal c = Some d -> (0 <= d)%Z).

(** The exceptions the [except] clauses of lines 65-72 catch. *)
Definition is_request_exception (e : exn) : bool :=
  match e with
  | RequestException _ => true
  | _ => false
  end.

(** The events [get_weather_data] can leave in the trace. *)
Definition fetch_event (ev : event) : bool :=
  match ev with
  | EvGet _ _ | EvPrint _ | EvSleep _ => true
  | _ => false
  end.

Definition is_list (ev : event) : bool :=
  match ev with EvList _ _ => true | _ => false end.

Definition list_calls (tr : trace) : nat :=
  List.length (List.filter is_list tr).

(** A value that came out of the [return] of line 63 after the events
    [log]: the last event is a GET, its response passed
    [raise_for_status], and the value is the decoded body. *)
Definition returned_by_parse (E : env) (url : pystr) (params : params_t)
    (tr log : trace) (v : pyval) : Prop :=
  exists res log',
    log = log' ++ [EvGet url params] /\
    requests_get E (http_calls (tr ++ log')) url params = Return res /\
    raise_for_status res = None /\
    xmltodict_parse E (text res) = inl v.

(** What can be said of the loop of lines 56-75 run [n] times from trace
    [tr], whatever the collaborators answer. *)
Definition retry_loop_shape (E : env) (url : pystr) (params : params_t)
    (n : nat) (dict_data : option pyval) (tr : trace)
    (result : outcome loop_exit * trace) : Prop :=
  exists log,
    snd result = tr ++ log /\
    forallb fetch_event log = true /\
    (http_calls log <= n)%nat /\
    match fst result with
    | Return (Returned v) => returned_by_parse E url params tr log v
    | Return (Exhausted d) => d = dict_data /\ http_calls log = n
    | Raise e => is_request_exception e = false
    end.




(** ** Stubs for concrete runs *)

Definition forecast_item (category value : string) : pyval :=
  PDict [(py "baseDate", PStr (py "20240101"));
         (py "category", PStr (py category));
         (py "fcstValue", PStr (py value))].

(** The decoded reply of the testable property: one item per recognized
    category and one unrecognized. *)
Definition sample_items : list pyval :=
  [forecast_item "PTY" "0"; forecast_item "REH" "55";
   forecast_item "SKY" "1"; forecast_item "TMN" "10";
   forecast_item "TMX" "20"; forecast_item "VEC" "270";
   forecast_item "WSD" "3"; forecast_item "FOO" "99"].

Definition sample_document : pyval :=
  PDict [(py "response",
          PDict [(py "header", PDict [(py "resultCode", PStr (py "00"))]);
                 (py "body",
                  PDict [(py "dataType", PStr (py "XML"));
                         (py "items",
                          PDict [(py "item", PList sample_items)])])])].

Definition sample_snapshot : pyval :=
  PDict [(py "pty", PStr (py "0")); (py "reh", PStr (py "55"));
         (py "sky", PStr (py "1")); (py "tmn", PStr (py "10"));
         (py "tmx", PStr (py "20")); (py "vec", PStr (py "270"));
         (py "wsd", PStr (py "3"))].

Definition sample_xml : pystr := py "<response>sample</response>".

(** The reply the provider sends for a rejected request: another root
    element, no item list. *)
Definition error_document : pyval :=
  PDict [(py "OpenAPI_ServiceResponse",
          PDict [(py "cmmMsgHeader",
                  PDict [(py "errMsg", PStr (py "SERVICE ERROR"));
                         (py "returnReasonCode", PStr (py "30"))])])].

Definition error_xml : pystr :=
  py "<OpenAPI_ServiceResponse>error</OpenAPI_ServiceResponse>".

Definition stub_parse (xml_data : pystr) : pyval + pystr :=
  if str_eqb xml_data sample_xml then inl sample_document
  else if str_eqb xml_data error_xml then inl error_document
  else inr (py "syntax error").


Definition ok_response : outcome response :=
  Return {| text := sample_xml; raise_for_status := None |}.

Definition http_503 : outcome response :=
  Return {| text := py "Service Unavailable";
            raise_for_status := Some (py "503 Server Error") |}.

Definition timed_out : outcome response :=
  Raise (RequestException
           {| is_HTTPError := false; is_ConnectionError := false;
              is_Timeout := true; exc_message := py "read timed out" |}).

Definition access_denied : exn :=
  OtherException (py "ClientError") (py "AccessDenied").

(** A run against a bucket holding [store], on 2024-01-01. *)
Definition stub_env (http : nat -> outcome response) (store : list pystr)
    (put : outcome unit) : env :=
  {| requests_get := fun n _ _ => http n;
     xmltodict_parse := stub_parse;
     datetime_now := {| year := 2024; month := 1; day := 1 |};
     list_objects_v2 :=
       fun _ key_prefix => Return (first_page store key_prefix);
     put_object := fun _ _ _ => put |}.

Definition stub_config : config :=
  {| WEATHER_OPENAPI_URL := py "http://apis.example/getVilageFcst";
     WEATHER_OPENAPI_PARAMS :=
       [(py "pageNo", inl (py "1")); (py "nx", inr 55%Z)];
     AWS_CONFIG := {| bucket_name := py "bucket"; prefix := py "raw/" |} |}.

(** A bucket holding [dated_base_0001] ... [dated_base_1001]. *)
Definition crowded_store (dated_base : pystr) : list pystr :=
  List.map (fun i => dated_base ++ 95 :: zero_pad 4 (N.of_nat i))
    (List.seq 1 1001).

(** * Properties *)

(** ** The trace and the monad *)

Lemma http_calls_app (a b : trace) :
  http_calls (a ++ b) = (http_calls a + http_calls b)%nat.
Proof.
  unfold http_calls. rewrite filter_app, length_app. reflexivity.
Qed.


Lemma http_calls_failed_attempt url params interval r :
  http_calls (failed_attempt url params interval r) = 1%nat.
Proof. reflexivity. Qed.


Lemma http_calls_failed_attempts url params interval r first n :
  http_calls (failed_attempts url params interval r first n) = n.
Proof.
  unfold failed_attempts. revert first.
  induction n as [|n IH]; intros first; [reflexivity|].
  cbn [List.seq flat_map].
  rewrite http_calls_app, IH, http_calls_failed_attempt. reflexivity.
Qed.



(** ** The retry loop *)

Section Retry.

Variable E : env.
Variables (url : pystr) (params : params_t) (interval : Z).

(** One failed attempt: the GET, the handler's line, the sleep, and the
    loop goes on with the local untouched. *)
Lemma retry_loop_failed_attempt n dict_data tr r :
  (0 <= interval)%Z ->
  failure_of (requests_get E (http_calls tr) url params) = Some r ->
  retry_loop E url params interval (S n) dict_data tr =
  retry_loop E url params interval n dict_data
    (tr ++ failed_attempt url params interval r).
Proof.
  intros Hi Hf.
  assert (Hs : (interval <? 0)%Z = false) by (apply Z.ltb_ge; exact Hi).
  cbn [retry_loop].
  unfold bind at 1, try_except, bind at 1, try_suite, bind at 1, http_get.
  destruct (requests_get E (http_calls tr) url params) as [res|e] eqn:Hget;
    cbn [failure_of] in Hf.
  - unfold res_raise_for_status.
    destruct (raise_for_status res) as [msg|]; [|discriminate].
    cbn in Hf. injection Hf as <-.
    cbn. unfold bind, time_sleep. rewrite Hs. cbn.
    unfold failed_attempt. rewrite <- !app_assoc. reflexivity.
  - destruct e; try discriminate. injection Hf as <-.
    cbn. unfold bind, time_sleep. rewrite Hs. cbn.
    unfold failed_attempt. rewrite <- !app_assoc. reflexivity.
Qed.


(** The first successful attempt ends the loop from inside. *)
Lemma retry_loop_success n dict_data tr res :
  requests_get E (http_calls tr) url params = Return res ->
  raise_for_status res = None ->
  retry_loop E url params interval (S n) dict_data tr =
  match xmltodict_parse E (text res) with
  | inl d => (Return (Returned d), tr ++ [EvGet url params])
  | inr msg => (Raise (ExpatError msg), tr ++ [EvGet url params])
  end.
Proof.
  intros Hget Hok.
  cbn [retry_loop].
  unfold bind at 1, try_except, bind at 1, try_suite, bind at 1, http_get.
  rewrite Hget. unfold res_raise_for_status. rewrite Hok.
  cbn. unfold bind, parse.
  destruct (xmltodict_parse E (text res)); reflexivity.
Qed.

(** [k] failures, then a success. *)
Lemma retry_loop_fail_then_success (r : nat -> request_exception) k n res :
  forall dict_data tr,
  (0 <= interval)%Z ->
  (forall i, (i < k)%nat ->
     failure_of (requests_get E (http_calls tr + i) url params)
     = Some (r (http_calls tr + i)%nat)) ->
  requests_get E (http_calls tr + k) url params = Return res ->
  raise_for_status res = None ->
  retry_loop E url params interval (k + S n) dict_data tr =
  let tr' := tr ++ failed_attempts url params interval r (http_calls tr) k
                ++ [EvGet url params] in
  match xmltodict_parse E (text res) with
  | inl d => (Return (Returned d), tr')
  | inr msg => (Raise (ExpatError msg), tr')
  end.
Proof.
  induction k as [|k IH]; intros dict_data tr Hi Hall Hget Hok.
  - rewrite Nat.add_0_r in Hget. cbn [Nat.add].
    rewrite (retry_loop_success n dict_data tr res Hget Hok).
    cbn. destruct (xmltodict_parse E (text res)); reflexivity.
  - cbn [Nat.add].
    rewrite (retry_loop_failed_attempt (k + S n) dict_data tr
               (r (http_calls tr)) Hi).
    2:{ specialize (Hall 0%nat ltac:(lia)). rewrite Nat.add_0_r in Hall.
        exact Hall. }
    rewrite IH; [|exact Hi| | |exact Hok].
    + rewrite http_calls_app, http_calls_failed_attempt.
      unfold failed_attempts. cbn [List.seq flat_map].
      rewrite <- !app_assoc, Nat.add_1_r.
      destruct (xmltodict_parse E (text res)); reflexivity.
    + intros i Hlt. rewrite http_calls_app, http_calls_failed_attempt.
      replace (http_calls tr + 1 + i)%nat with (http_calls tr + S i)%nat
        by lia.
      apply Hall. lia.
    + rewrite http_calls_app, http_calls_failed_attempt.
      replace (http_calls tr + 1 + k)%nat with (http_calls tr + S k)%nat
        by lia.
      exact Hget.
Qed.

End Retry.

Section Fetcher.

Variable E : env.
Variables (url : pystr) (params : params_t) (max_retries interval : Z).
Variable tr : trace.

Variable r : nat -> request_exception.




(** A negative interval: the first failed attempt is followed by a
    [ValueError] from [time.sleep]. *)
Lemma retry_loop_negative_interval n dict_data x :
  (interval < 0)%Z ->
  failure_of (requests_get E (http_calls tr) url params) = Some x ->
  retry_loop E url params interval (S n) dict_data tr =
  (Raise (ValueError (py "sleep length must be non-negative")),
   tr ++ [EvGet url params; EvPrint (failure_line x)]).
Proof.
  intros Hi Hf.
  assert (Hs : (interval <? 0)%Z = true) by (apply Z.ltb_lt; exact Hi).
  cbn [retry_loop].
  unfold bind at 1, try_except, bind at 1, try_suite, bind at 1, http_get.
  destruct (requests_get E (http_calls tr) url params) as [res|e] eqn:Hget;
    cbn [failure_of] in Hf.
  - unfold res_raise_for_status.
    destruct (raise_for_status res) as [msg|]; [|discriminate].
    cbn in Hf. injection Hf as <-.
    cbn. unfold bind, time_sleep. rewrite Hs. cbn.
    rewrite <- !app_assoc. reflexivity.
  - destruct e; try discriminate. injection Hf as <-.
    cbn. unfold bind, time_sleep. rewrite Hs. cbn.
    rewrite <- !app_assoc. reflexivity.
Qed.


End Fetcher.



(** C6.  When the first [k < max_retries] attempts fail and the next one
    succeeds, [get_weather_data] makes exactly [k + 1] GETs, the last
    event of the call being the successful GET; it returns the decoded
    body, and a decode error on that body propagates without a retry. *)
Theorem get_weather_data_retry_success (E : env) (url : pystr)
    (params : params_t) (max_retries interval : Z) (tr : trace)
    (r : nat -> request_exception) (k : nat) (res : response) :
  (k < Z.to_nat max_retries)%nat ->
  (0 <= interval)%Z ->
  (forall i, (i < k)%nat ->
     failure_of (requests_get E (http_calls tr + i) url params)
     = Some (r (http_calls tr + i)%nat)) ->
  requests_get E (http_calls tr + k) url params = Return res ->
  raise_for_status res = None ->
  let log := failed_attempts url params interval r (http_calls tr) k
             ++ [EvGet url params] in
  http_calls log = S k /\
  (forall d, xmltodict_parse E (text res) = inl d ->
     get_weather_data E url params max_retries interval tr
     = (Return d, tr ++ log)) /\
  (forall msg, xmltodict_parse E (text res) = inr msg ->
     get_weather_data E url params max_retries interval tr
     = (Raise (ExpatError msg), tr ++ log)).
Proof.
  intros Hk Hi Hfail Hget Hok log.
  assert (Hn : Z.to_nat max_retries = (k + S (Z.to_nat max_retries - S k))%nat)
    by lia.
  pose proof (retry_loop_fail_then_success E url params interval r k
                (Z.to_nat max_retries - S k)%nat res None tr Hi Hfail Hget Hok)
    as Hloop.
  rewrite <- Hn in Hloop. cbv zeta in Hloop.
  split; [|split].
  - unfold log. rewrite http_calls_app, http_calls_failed_attempts.
    cbn. lia.
  - intros d Hd. unfold get_weather_data, bind. rewrite Hloop, Hd.
    reflexivity.
  - intros msg Hd. unfold get_weather_data, bind. rewrite Hloop, Hd.
    reflexivity.
Qed.

(** ** The encoder *)

Lemma pyval_nested_ind (P : pyval -> Prop) :
  P PNone ->
  (forall s, P (PStr s)) ->
  (forall items, Forall P items -> P (PList items)) ->
  (forall pairs, Forall (fun kv => P (snd kv)) pairs -> P (PDict pairs)) ->
  forall v, P v.
Proof.
  intros HNone HStr HList HDict.
  fix IH 1.
  intros [ | s | items | pairs].
  - exact HNone.
  - apply HStr.
  - apply HList. induction items as [|x items IHitems].
    + constructor.
    + constructor; [apply IH | exact IHitems].
  - apply HDict. induction pairs as [|[k x] pairs IHpairs].
    + constructor.
    + constructor; [apply IH | exact IHpairs].
Qed.

Lemma ascii_only_app a b : ascii_only a -> ascii_only b -> ascii_only (a ++ b).
Proof. intros Ha Hb. apply Forall_app. split; assumption. Qed.

Lemma hex_digit_ascii d : d < 16 -> Json.hex_digit d < 128.
Proof.
  intros Hd. unfold Json.hex_digit. destruct (d <? 10); lia.
Qed.

Lemma hex4_ascii n : ascii_only (Json.hex4 n).
Proof.
  unfold Json.hex4.
  repeat constructor; apply hex_digit_ascii; apply N.mod_lt; lia.
Qed.

Lemma escape_char_ascii c : ascii_only (Json.escape_char c).
Proof.
  unfold Json.escape_char.
  repeat match goal with
         | |- ascii_only (if ?b then _ else _) => destruct b eqn:?
         end;
    try (repeat constructor; lia).
  - rewrite andb_true_iff, !N.leb_le in *. repeat constructor; lia.
  - repeat (constructor; [lia|]). apply hex4_ascii.
  - cbv zeta. apply ascii_only_app.
    + repeat (constructor; [lia|]). apply hex4_ascii.
    + repeat (constructor; [lia|]). apply hex4_ascii.
Qed.

Lemma encode_basestring_ascii_ascii s :
  ascii_only (Json.encode_basestring_ascii s).
Proof.
  unfold Json.encode_basestring_ascii. constructor; [lia|].
  apply ascii_only_app; [|repeat constructor; lia].
  induction s as [|c s IH]; cbn [flat_map]; [constructor|].
  apply ascii_only_app; [apply escape_char_ascii | exact IH].
Qed.

Lemma join_ascii sep parts :
  ascii_only sep -> Forall ascii_only parts -> ascii_only (join sep parts).
Proof.
  intros Hsep Hparts. induction Hparts as [|p parts Hp Hparts IH].
  - constructor.
  - cbn [join]. destruct parts as [|q parts]; [exact Hp|].
    apply ascii_only_app; [exact Hp|]. apply ascii_only_app; assumption.
Qed.

Lemma dumps_ascii v : ascii_only (Json.dumps v).
Proof.
  induction v as [ | s | items IH | pairs IH] using pyval_nested_ind;
    cbn [Json.dumps].
  - repeat constructor; lia.
  - apply encode_basestring_ascii_ascii.
  - constructor; [lia|].
    apply ascii_only_app; [|repeat constructor; lia].
    apply join_ascii; [repeat constructor; lia|].
    apply Forall_map. exact IH.
  - constructor; [lia|].
    apply ascii_only_app; [|repeat constructor; lia].
    apply join_ascii; [repeat constructor; lia|].
    apply Forall_map. apply Forall_impl with (2 := IH).
    intros [k x] Hx. cbn [snd] in Hx.
    apply ascii_only_app; [apply encode_basestring_ascii_ascii|].
    apply ascii_only_app; [repeat constructor; lia | exact Hx].
Qed.

Lemma str_encode_utf8_ascii s :
  ascii_only s -> str_encode_utf8 s = Return (List.map byte_of_N s).
Proof.
  induction 1 as [|c s Hc Hs IH]; [reflexivity|].
  cbn [str_encode_utf8 List.map]. unfold utf8_encode_char.
  apply N.ltb_lt in Hc. rewrite Hc, IH. reflexivity.
Qed.

(** The encoder cannot fail: its JSON text is ASCII. *)
Lemma process_weather_data_total weather_data :
  process_weather_data weather_data
  = Return (List.map byte_of_N (Json.dumps weather_data)).
Proof.
  unfold process_weather_data. apply str_encode_utf8_ascii, dumps_ascii.
Qed.

Lemma to_N_byte_of_N n : n < 256 -> Byte.to_N (byte_of_N n) = n.
Proof.
  intros Hn. unfold byte_of_N.
  destruct (Byte.of_N n) as [b|] eqn:Hb.
  - apply Byte.to_of_N. exact Hb.
  - apply Byte.of_N_None_iff in Hb. lia.
Qed.

Lemma bytes_decode_utf8_ascii s :
  ascii_only s ->
  bytes_decode_utf8 (List.map Byte.to_N (List.map byte_of_N s)) = Some s.
Proof.
  induction 1 as [|c s Hc Hs IH]; [reflexivity|].
  cbn [List.map bytes_decode_utf8].
  rewrite to_N_byte_of_N by lia.
  apply N.ltb_lt in Hc. rewrite Hc, IH. reflexivity.
Qed.

(** ** Reading a payload back *)

Lemma hex_value_hex_digit d :
  d < 16 -> Json.hex_value (Json.hex_digit d) = Some d.
Proof.
  intros Hd. unfold Json.hex_digit, Json.hex_value.
  destruct (d <? 10) eqn:H10.
  - apply N.ltb_lt in H10.
    replace ((48 <=? 48 + d) && (48 + d <=? 57)) with true.
    + f_equal. lia.
    + symmetry. apply andb_true_iff. split; apply N.leb_le; lia.
  - apply N.ltb_ge in H10.
    replace ((48 <=? 87 + d) && (87 + d <=? 57)) with false.
    + replace ((97 <=? 87 + d) && (87 + d <=? 102)) with true.
      * f_equal. lia.
      * symmetry. apply andb_true_iff. split; apply N.leb_le; lia.
    + symmetry. apply andb_false_iff. right. apply N.leb_gt. lia.
Qed.

Lemma decode_hex4 n rest :
  n < 65536 -> Json.decode_uXXXX (Json.hex4 n ++ rest) = Some (n, rest).
Proof.
  intros Hn. unfold Json.hex4, Json.decode_uXXXX.
  rewrite <- !app_comm_cons, app_nil_l.
  rewrite !hex_value_hex_digit by (apply N.mod_lt; lia).
  f_equal. f_equal.
  pose proof (N.div_mod n 16 ltac:(lia)) as H0.
  pose proof (N.div_mod (n / 16) 16 ltac:(lia)) as H1.
  pose proof (N.div_mod (n / 16 / 16) 16 ltac:(lia)) as H2.
  rewrite !N.Div0.div_div in H1, H2. rewrite N.Div0.div_div in H2.
  change (16 * 16) with 256 in *. change (256 * 16) with 4096 in *.
  assert (H3 : n / 4096 < 16)
    by (apply N.Div0.div_lt_upper_bound; lia).
  rewrite (N.mod_small (n / 4096) 16 H3) in *.
  lia.
Qed.

Lemma scanstring_literal fuel c rest :
  c <> 34 -> c <> 92 -> 32 <= c ->
  Json.scanstring (S fuel) (c :: rest)
  = Json.option_cons c (Json.scanstring fuel rest).
Proof.
  intros H34 H92 H32. cbn [Json.scanstring].
  apply N.eqb_neq in H34, H92. rewrite H34, H92.
  replace (c <? 32) with false by (symmetry; apply N.ltb_ge; exact H32).
  reflexivity.
Qed.

Lemma scanstring_short fuel e ch rest :
  e <> 117 -> Json.backslash e = Some ch ->
  Json.scanstring (S fuel) (92 :: e :: rest)
  = Json.option_cons ch (Json.scanstring fuel rest).
Proof.
  intros H117 Hb. cbn [Json.scanstring].
  change (92 =? 34) with false. change (92 =? 92) with true. cbv iota.
  apply N.eqb_neq in H117. rewrite H117, Hb. reflexivity.
Qed.

Lemma scanstring_u fuel s2 uni s3 :
  Json.decode_uXXXX s2 = Some (uni, s3) ->
  ~ (0xd800 <= uni <= 0xdbff) ->
  Json.scanstring (S fuel) (92 :: 117 :: s2)
  = Json.option_cons uni (Json.scanstring fuel s3).
Proof.
  intros Hd Hs. cbn [Json.scanstring].
  change (92 =? 34) with false. change (92 =? 92) with true.
  change (117 =? 117) with true. cbv iota. rewrite Hd.
  replace ((0xd800 <=? uni) && (uni <=? 0xdbff)) with false; [reflexivity|].
  symmetry. apply andb_false_iff.
  destruct (N.le_gt_cases 0xd800 uni) as [H1|H1].
  - right. apply N.leb_gt. lia.
  - left. apply N.leb_gt. exact H1.
Qed.

Lemma scanstring_pair fuel s2 uni s4 uni2 s5 :
  Json.decode_uXXXX s2 = Some (uni, 92 :: 117 :: s4) ->
  0xd800 <= uni <= 0xdbff ->
  Json.decode_uXXXX s4 = Some (uni2, s5) ->
  0xdc00 <= uni2 <= 0xdfff ->
  Json.scanstring (S fuel) (92 :: 117 :: s2)
  = Json.option_cons
      (0x10000 + N.lor (N.shiftl (uni - 0xd800) 10) (uni2 - 0xdc00))
      (Json.scanstring fuel s5).
Proof.
  intros Hd [Hh1 Hh2] Hd2 [Hl1 Hl2]. cbn [Json.scanstring].
  change (92 =? 34) with false. change (92 =? 92) with true.
  change (117 =? 117) with true. cbv iota. rewrite Hd.
  replace ((0xd800 <=? uni) && (uni <=? 0xdbff)) with true
    by (symmetry; apply andb_true_iff; split; apply N.leb_le; assumption).
  change ((92 =? 92) && (117 =? 117)) with true. cbv iota. rewrite Hd2.
  replace ((0xdc00 <=? uni2) && (uni2 <=? 0xdfff)) with true
    by (symmetry; apply andb_true_iff; split; apply N.leb_le; assumption).
  reflexivity.
Qed.

(** Bits that do not overlap add up. *)
Lemma lor_shiftl_small a b k :
  b < 2 ^ k -> N.lor (N.shiftl a k) b = a * 2 ^ k + b.
Proof.
  intros Hb.
  assert (Hland : N.land (N.shiftl a k) b = 0).
  { apply N.bits_inj. intros i. rewrite N.land_spec, N.bits_0.
    destruct (N.lt_ge_cases i k) as [Hlt|Hge].
    - rewrite N.shiftl_spec_low by exact Hlt. reflexivity.
    - rewrite <- (N.mod_small b (2 ^ k) Hb).
      rewrite N.mod_pow2_bits_high by exact Hge.
      apply andb_false_r. }
  rewrite <- N.lxor_lor by exact Hland.
  rewrite <- N.add_nocarry_lxor by exact Hland.
  rewrite N.shiftl_mul_pow2. reflexivity.
Qed.

(** The surrogate pair the encoder writes for a code point above the
    basic plane, and the decoder's join of the two halves. *)
Lemma surrogate_pair c :
  0x10000 <= c < 0x110000 ->
  let n := c - 0x10000 in
  let s1 := N.lor 0xd800 (N.land (N.shiftr n 10) 0x3ff) in
  let s2 := N.lor 0xdc00 (N.land n 0x3ff) in
  0xd800 <= s1 <= 0xdbff /\ 0xdc00 <= s2 <= 0xdfff /\
  0x10000 + N.lor (N.shiftl (s1 - 0xd800) 10) (s2 - 0xdc00) = c.
Proof.
  intros Hc n s1 s2.
  assert (Hn : n < 1048576) by (unfold n; lia).
  assert (Hhi : N.land (N.shiftr n 10) 0x3ff = n / 1024).
  { change 0x3ff with (N.ones 10). rewrite N.land_ones, N.shiftr_div_pow2.
    change (2 ^ 10) with 1024. apply N.mod_small.
    apply N.Div0.div_lt_upper_bound. lia. }
  assert (Hlo : N.land n 0x3ff = n mod 1024).
  { change 0x3ff with (N.ones 10). rewrite N.land_ones. reflexivity. }
  assert (Hq : n / 1024 < 1024)
    by (apply N.Div0.div_lt_upper_bound; lia).
  assert (Hr : n mod 1024 < 1024) by (apply N.mod_lt; lia).
  assert (H1 : s1 = 0xd800 + n / 1024).
  { unfold s1. rewrite Hhi. change 0xd800 with (N.shiftl 54 10).
    rewrite lor_shiftl_small by (change (2 ^ 10) with 1024; exact Hq).
    reflexivity. }
  assert (H2 : s2 = 0xdc00 + n mod 1024).
  { unfold s2. rewrite Hlo. change 0xdc00 with (N.shiftl 55 10).
    rewrite lor_shiftl_small by (change (2 ^ 10) with 1024; exact Hr).
    reflexivity. }
  rewrite H1, H2. split; [lia|]. split; [lia|].
  replace (0xd800 + n / 1024 - 0xd800) with (n / 1024) by lia.
  replace (0xdc00 + n mod 1024 - 0xdc00) with (n mod 1024) by lia.
  rewrite lor_shiftl_small by (change (2 ^ 10) with 1024; exact Hr).
  change (2 ^ 10) with 1024.
  pose proof (N.div_mod n 1024 ltac:(lia)). unfold n in *. lia.
Qed.

(** One pass of the scanner undoes the escape of one character. *)
Lemma scanstring_escape_char fuel c rest :
  scalar_value c ->
  Json.scanstring (S fuel) (Json.escape_char c ++ rest)
  = Json.option_cons c (Json.scanstring fuel rest).
Proof.
  intros [Hmax Hsur]. unfold Json.escape_char.
  destruct (c =? 92) eqn:H92.
  { apply N.eqb_eq in H92. subst c.
    apply (scanstring_short fuel 92 92 rest); [lia | reflexivity]. }
  destruct (c =? 34) eqn:H34.
  { apply N.eqb_eq in H34. subst c.
    apply (scanstring_short fuel 34 34 rest); [lia | reflexivity]. }
  apply N.eqb_neq in H92, H34.
  destruct ((32 <=? c) && (c <=? 126)) eqn:Hprint.
  { apply andb_true_iff in Hprint. destruct Hprint as [H32 _].
    apply N.leb_le in H32.
    apply (scanstring_literal fuel c rest H34 H92 H32). }
  destruct (c =? 8) eqn:H8.
  { apply N.eqb_eq in H8. subst c.
    apply (scanstring_short fuel 98 8 rest); [lia | reflexivity]. }
  destruct (c =? 12) eqn:H12.
  { apply N.eqb_eq in H12. subst c.
    apply (scanstring_short fuel 102 12 rest); [lia | reflexivity]. }
  destruct (c =? 10) eqn:H10.
  { apply N.eqb_eq in H10. subst c.
    apply (scanstring_short fuel 110 10 rest); [lia | reflexivity]. }
  destruct (c =? 13) eqn:H13.
  { apply N.eqb_eq in H13. subst c.
    apply (scanstring_short fuel 114 13 rest); [lia | reflexivity]. }
  destruct (c =? 9) eqn:H9.
  { apply N.eqb_eq in H9. subst c.
    apply (scanstring_short fuel 116 9 rest); [lia | reflexivity]. }
  destruct (c <? 0x10000) eqn:Hbmp.
  { apply N.ltb_lt in Hbmp.
    rewrite <- !app_comm_cons.
    apply scanstring_u; [apply decode_hex4; exact Hbmp | lia]. }
  apply N.ltb_ge in Hbmp.
  destruct (surrogate_pair c (conj Hbmp Hmax)) as (Hh & Hl & Hjoin).
  cbv zeta in *.
  rewrite <- app_assoc, <- !app_comm_cons.
  rewrite <- Hjoin at 3.
  eapply scanstring_pair.
  - apply decode_hex4. lia.
  - exact Hh.
  - apply decode_hex4. lia.
  - exact Hl.
Qed.

Lemma escape_char_nonempty c : (1 <= List.length (Json.escape_char c))%nat.
Proof.
  unfold Json.escape_char.
  repeat match goal with
         | |- context [if ?b then _ else _] => destruct b
         end; cbn; lia.
Qed.

(** The scanner reads an encoded string back, up to its closing quote. *)
Lemma scanstring_escaped s :
  forall fuel rest,
  Forall scalar_value s ->
  (List.length s < fuel)%nat ->
  Json.scanstring fuel (flat_map Json.escape_char s ++ 34 :: rest)
  = Some (s, rest).
Proof.
  induction s as [|c s IH]; intros fuel rest Hs Hfuel.
  - destruct fuel as [|fuel]; [cbn in Hfuel; lia|]. reflexivity.
  - destruct fuel as [|fuel]; [cbn in Hfuel; lia|].
    inversion Hs as [|? ? Hc Hs']; subst.
    cbn [flat_map]. rewrite <- app_assoc.
    rewrite scanstring_escape_char by exact Hc.
    rewrite IH; [reflexivity | exact Hs' | cbn in Hfuel; lia].
Qed.

Lemma flat_map_escape_length s :
  (List.length s <= List.length (flat_map Json.escape_char s))%nat.
Proof.
  induction s as [|c s IH]; [cbn; lia|].
  cbn [flat_map]. rewrite length_app.
  pose proof (escape_char_nonempty c). cbn [List.length]. lia.
Qed.

(** The same with the fuel the decoder gives itself. *)
Lemma scanstring_encoded s rest :
  Forall scalar_value s ->
  let input := flat_map Json.escape_char s ++ 34 :: rest in
  Json.scanstring (List.length input) input = Some (s, rest).
Proof.
  intros Hs input. apply scanstring_escaped; [exact Hs|].
  unfold input. rewrite length_app. cbn [List.length].
  pose proof (flat_map_escape_length s). lia.
Qed.

Lemma str_eqb_eq a b : str_eqb a b = true <-> a = b.
Proof.
  revert b. induction a as [|x a IH]; intros [|y b]; cbn;
    try (split; [discriminate | discriminate]); [tauto|].
  rewrite andb_true_iff, N.eqb_eq, IH. split.
  - intros [-> ->]. reflexivity.
  - intros H. injection H as -> ->. tauto.
Qed.

Lemma str_eqb_refl a : str_eqb a a = true.
Proof. apply str_eqb_eq. reflexivity. Qed.

Lemma str_eqb_neq a b : a <> b -> str_eqb a b = false.
Proof.
  intros H. destruct (str_eqb a b) eqn:Heq; [|reflexivity].
  apply str_eqb_eq in Heq. contradiction.
Qed.

Lemma dict_set_fresh d k v :
  ~ In k (List.map fst d) -> dict_set d k v = d ++ [(k, v)].
Proof.
  induction d as [|[k' v'] d IH]; intros Hk; [reflexivity|].
  cbn [dict_set]. cbn in Hk.
  rewrite str_eqb_neq by tauto. rewrite IH by tauto. reflexivity.
Qed.

Lemma dict_of_pairs_distinct pairs :
  NoDup (List.map fst pairs) -> dict_of_pairs pairs = pairs.
Proof.
  unfold dict_of_pairs.
  enough (H : forall acc,
             NoDup (List.map fst (acc ++ pairs)) ->
             fold_left (fun d kv => dict_set d (fst kv) (snd kv)) pairs acc
             = acc ++ pairs)
    by (intros Hnd; apply (H [] Hnd)).
  induction pairs as [|[k v] pairs IH]; intros acc Hnd.
  - cbn. rewrite app_nil_r. reflexivity.
  - cbn [fold_left fst snd].
    rewrite dict_set_fresh.
    + rewrite IH; rewrite <- app_assoc; [reflexivity | exact Hnd].
    + rewrite map_app in Hnd. cbn in Hnd.
      apply NoDup_remove_2 in Hnd. intros Hin. apply Hnd.
      apply in_or_app. left. exact Hin.
Qed.

Lemma members_tail_length m rest :
  (List.length m < List.length (members_tail m rest))%nat.
Proof.
  induction m as [|[k v] m IH]; cbn [members_tail List.length]; [lia|].
  rewrite !length_app. cbn [List.length]. rewrite !length_app.
  cbn [List.length]. lia.
Qed.

Lemma join_cons2 sep p q l :
  join sep (p :: q :: l) = p ++ sep ++ join sep (q :: l).
Proof. reflexivity. Qed.

(** The text [json.dumps] writes for a non-empty flat mapping. *)
Lemma dumps_members k v m rest :
  join (py ", ")
    (List.map (fun kv => match kv with
                         | (k0, x) => Json.encode_basestring_ascii k0
                                      ++ py ": " ++ Json.dumps x
                         end)
       (List.map (fun kv => (fst kv, PStr (snd kv))) ((k, v) :: m)))
  ++ 125 :: rest
  = 34 :: flat_map Json.escape_char k
       ++ 34 :: 58 :: 32 :: 34 :: flat_map Json.escape_char v
       ++ 34 :: members_tail m rest.
Proof.
  revert k v. induction m as [|[k' v'] m IH]; intros k v.
  - cbn [List.map join fst snd Json.dumps members_tail].
    unfold Json.encode_basestring_ascii.
    change (py ": ") with [58; 32].
    repeat (rewrite <- ?app_assoc, <- ?app_comm_cons; cbn [Datatypes.app]).
    reflexivity.
  - specialize (IH k' v').
    cbn [List.map fst snd] in IH |- *.
    rewrite join_cons2, <- !app_assoc.
    cbn [members_tail].
    transitivity
      (Json.encode_basestring_ascii k ++ py ": " ++ Json.dumps (PStr v)
       ++ py ", "
       ++ (34 :: flat_map Json.escape_char k'
              ++ 34 :: 58 :: 32 :: 34 :: flat_map Json.escape_char v'
              ++ 34 :: members_tail m rest)).
    + do 4 f_equal. exact IH.
    + cbn [Json.dumps]. unfold Json.encode_basestring_ascii.
      change (py ": ") with [58; 32]. change (py ", ") with [44; 32].
      repeat (rewrite <- ?app_assoc, <- ?app_comm_cons; cbn [Datatypes.app]).
      reflexivity.
Qed.

Lemma skip_ws_stop c s :
  Json.is_ws c = false -> Json.skip_ws (c :: s) = c :: s.
Proof. intros H. cbn [Json.skip_ws]. rewrite H. reflexivity. Qed.

Lemma skip_ws_space s : Json.skip_ws (32 :: s) = Json.skip_ws s.
Proof. reflexivity. Qed.

(** Replace the scan of a key or a string in the goal by its result. *)
Ltac scanned H :=
  match type of H with
  | _ = ?result =>
      match goal with
      | |- context [Json.scanstring ?n ?s] =>
          replace (Json.scanstring n s) with result by (symmetry; exact H)
      end
  end.

(** The member loop reads back the members [json.dumps] wrote. *)
Lemma object_pairs_members value m :
  (forall s tail, Forall scalar_value s ->
     value (34 :: flat_map Json.escape_char s ++ 34 :: tail)
     = Some (PStr s, tail)) ->
  forall k v acc rest fuel,
  Forall scalar_value k -> Forall scalar_value v ->
  Forall (fun kv => Forall scalar_value (fst kv) /\
                    Forall scalar_value (snd kv)) m ->
  (List.length m < fuel)%nat ->
  Json.object_pairs value fuel
    (flat_map Json.escape_char k
     ++ 34 :: 58 :: 32 :: 34 :: flat_map Json.escape_char v
     ++ 34 :: members_tail m rest) acc
  = Some (PDict (dict_of_pairs
                   (acc ++ (k, PStr v)
                        :: List.map (fun kv => (fst kv, PStr (snd kv))) m)),
          rest).
Proof.
  intros Hvalue.
  induction m as [|[k' v'] m IH]; intros k v acc rest fuel Hk Hv Hm Hfuel;
    (destruct fuel as [|fuel]; [cbn in Hfuel; lia|]);
    cbn [Json.object_pairs].
  - pose proof (scanstring_encoded k
                  (58 :: 32 :: 34 :: flat_map Json.escape_char v
                   ++ 34 :: members_tail [] rest) Hk) as Hkey.
    cbv zeta in Hkey. scanned Hkey.
    rewrite (skip_ws_stop 58) by reflexivity.
    change (58 =? 58) with true. cbv iota.
    rewrite skip_ws_space, (skip_ws_stop 34) by reflexivity.
    rewrite (Hvalue v _ Hv).
    cbn [members_tail].
    rewrite (skip_ws_stop 125) by reflexivity.
    change (125 =? 125) with true. cbv iota.
    reflexivity.
  - inversion Hm as [|? ? [Hk' Hv'] Hm']; subst. cbn [fst snd] in Hk', Hv'.
    pose proof (scanstring_encoded k
                  (58 :: 32 :: 34 :: flat_map Json.escape_char v
                   ++ 34 :: members_tail ((k', v') :: m) rest) Hk) as Hkey2.
    cbv zeta in Hkey2. scanned Hkey2.
    rewrite (skip_ws_stop 58) by reflexivity.
    change (58 =? 58) with true. cbv iota.
    rewrite skip_ws_space, (skip_ws_stop 34) by reflexivity.
    rewrite (Hvalue v _ Hv).
    cbn [members_tail].
    rewrite (skip_ws_stop 44) by reflexivity.
    change (44 =? 125) with false. change (44 =? 44) with true. cbv iota.
    rewrite skip_ws_space, (skip_ws_stop 34) by reflexivity.
    change (34 =? 34) with true. cbv iota.
    refine (eq_trans
              (IH k' v' (acc ++ [(k, PStr v)]) rest fuel Hk' Hv' Hm' _) _);
      [cbn in Hfuel; lia|].
    cbn [List.map fst snd]. rewrite <- app_assoc. reflexivity.
Qed.

Lemma scan_once_string fuel s tail :
  Forall scalar_value s ->
  Json.scan_once (S fuel) (34 :: flat_map Json.escape_char s ++ 34 :: tail)
  = Some (PStr s, tail).
Proof.
  intros Hs. cbn [Json.scan_once]. change (34 =? 34) with true. cbv iota.
  pose proof (scanstring_encoded s tail Hs) as H. cbv zeta in H.
  scanned H. reflexivity.
Qed.

Lemma map_fst_mapping m :
  List.map fst (List.map (fun kv : pystr * pystr => (fst kv, PStr (snd kv))) m)
  = List.map fst m.
Proof. rewrite map_map. apply map_ext. reflexivity. Qed.

(** Decoding the JSON text of a well-formed flat mapping. *)
Lemma decode_dumps_mapping m :
  well_formed_mapping m ->
  Json.decode (Json.dumps (mapping_value m)) = Some (mapping_value m).
Proof.
  intros [Hnd Hwf]. unfold mapping_value, Json.decode.
  cbn [Json.dumps].
  rewrite (skip_ws_stop 123) by reflexivity.
  cbn [Json.scan_once]. change (123 =? 34) with false.
  change (123 =? 123) with true. cbv iota.
  destruct m as [|[k v] m].
  - reflexivity.
  - inversion Hwf as [|? ? [Hk Hv] Hm]; subst. cbn [fst snd] in Hk, Hv.
    pose proof (dumps_members k v m []) as Htext.
    change (125 :: []) with [125] in Htext. rewrite Htext.
    rewrite (skip_ws_stop 34) by reflexivity.
    change (34 =? 125) with false. change (34 =? 34) with true. cbv iota.
    match goal with
    | |- context [Json.object_pairs ?value ?fuel ?input ?acc] =>
        replace (Json.object_pairs value fuel input acc)
          with (Some (PDict (dict_of_pairs
                               ([] ++ (k, PStr v)
                                   :: List.map
                                        (fun kv : pystr * pystr =>
                                           (fst kv, PStr (snd kv))) m)),
                      @nil N))
    end.
    + cbn [Datatypes.app Json.skip_ws].
      rewrite dict_of_pairs_distinct; [reflexivity|].
      change ((k, PStr v)
              :: List.map (fun kv : pystr * pystr => (fst kv, PStr (snd kv))) m)
        with (List.map (fun kv : pystr * pystr => (fst kv, PStr (snd kv)))
                ((k, v) :: m)).
      rewrite map_fst_mapping. exact Hnd.
    + symmetry. apply object_pairs_members.
      * intros s tail Hs. cbn [Datatypes.length].
        apply scan_once_string. exact Hs.
      * exact Hk.
      * exact Hv.
      * exact Hm.
      * rewrite length_app.
        pose proof (members_tail_length m []).
        cbn [Datatypes.length]. rewrite length_app.
        cbn [Datatypes.length].
        eapply Nat.lt_le_trans; [exact H|]. lia.
Qed.

(** C9.  The encoder is a total function: it returns a byte payload for
    every document.  For a well-formed mapping of string fields to string
    values, decoding that payload as UTF-8 JSON gives the mapping back,
    with its fields in the same order. *)
Theorem process_weather_data_round_trip (m : list (pystr * pystr)) :
  well_formed_mapping m ->
  (forall weather_data, exists payload,
      process_weather_data weather_data = Return payload) /\
  exists payload,
    process_weather_data (mapping_value m) = Return payload /\
    json_loads payload = Some (mapping_value m).
Proof.
  intros Hwf. split.
  - intros weather_data. eexists. apply process_weather_data_total.
  - eexists. split; [apply process_weather_data_total|].
    unfold json_loads.
    rewrite bytes_decode_utf8_ascii by apply dumps_ascii.
    apply decode_dumps_mapping. exact Hwf.
Qed.

Lemma process_weather_data_round_trip_witness :
  exists payload,
    process_weather_data
      (mapping_value [(py "pty", py "0"); (py "sky", [0xB9D1; 0xC74C; 10]);
                      (py "wsd", [0x1F600; 34])])
    = Return payload /\
    json_loads payload
    = Some (mapping_value [(py "pty", py "0");
                           (py "sky", [0xB9D1; 0xC74C; 10]);
                           (py "wsd", [0x1F600; 34])]).
Proof.
  apply (process_weather_data_round_trip
           [(py "pty", py "0"); (py "sky", [0xB9D1; 0xC74C; 10]);
            (py "wsd", [0x1F600; 34])]).
  split.
  - repeat constructor; cbn; intuition discriminate.
  - unfold scalar_value. repeat constructor; cbn; lia.
Defined.

(** ** The key resolver *)

Lemma strip_prefix_app p s rest :
  strip_prefix p s = Some rest <-> s = p ++ rest.
Proof.
  revert s. induction p as [|x p IH]; intros s; cbn.
  - split; [intros H; injection H as ->; reflexivity | intros ->; reflexivity].
  - destruct s as [|y s]; [split; discriminate|].
    destruct (x =? y) eqn:Hxy.
    + apply N.eqb_eq in Hxy. subst y. rewrite IH. split.
      * intros ->. reflexivity.
      * intros H. injection H as ->. reflexivity.
    + apply N.eqb_neq in Hxy. split; [discriminate|].
      intros H. injection H as -> _. contradiction.
Qed.

Lemma max_default_spec l :
  (l = [] /\ max_default l 0%Z = 0%Z) \/
  (In (max_default l 0%Z) l /\ forall n, In n l -> (n <= max_default l 0)%Z).
Proof.
  destruct l as [|x l]; [left; split; reflexivity|]. right.
  cbn [max_default].
  enough (H : forall l x,
             In (fold_left Z.max l x) (x :: l) /\
             forall n, In n (x :: l) -> (n <= fold_left Z.max l x)%Z)
    by apply H.
  clear. induction l as [|y l IH]; intros x.
  - cbn. split; [tauto|]. intros n [->|[]]. lia.
  - cbn [fold_left]. destruct (IH (Z.max x y)) as [Hin Hub]. split.
    + destruct Hin as [Hin|Hin].
      * rewrite <- Hin.
        destruct (Z.max_spec x y) as [[_ ->]|[_ ->]]; cbn; tauto.
      * right. right. exact Hin.
    + intros n Hn.
      assert (Hxy : (Z.max x y <= fold_left Z.max l (Z.max x y))%Z)
        by (apply Hub; left; reflexivity).
      destruct Hn as [->|[->|Hn]]; [lia | lia |].
      apply Hub. right. exact Hn.
Qed.

Section KeyResolver.

Variable unicode_decimal : N -> option Z.

(** A line feed is no decimal digit. *)
Hypothesis newline_no_digit : unicode_decimal 10 = None.

Lemma re_dollar_spec eol : re_dollar eol = true <-> eol = [] \/ eol = [10].
Proof.
  destruct eol as [|c [|d eol]]; cbn.
  - tauto.
  - rewrite N.eqb_eq. split.
    + intros ->. tauto.
    + intros [H|H]; [discriminate | injection H as ->; reflexivity].
  - split; [discriminate | intros [H|H]; discriminate].
Qed.

Lemma re_digits_dollar_sound s ds :
  re_digits_dollar unicode_decimal s = Some ds ->
  exists eol, s = ds ++ eol /\ ds <> [] /\
              Forall (fun c => re_digit unicode_decimal c = true) ds /\
              re_dollar eol = true.
Proof.
  revert ds. induction s as [|c s IH]; intros ds; cbn [re_digits_dollar];
    [discriminate|].
  destruct (re_digit unicode_decimal c) eqn:Hc; [|discriminate].
  destruct (re_digits_dollar unicode_decimal s) as [ds'|] eqn:Hrec.
  - intros H. injection H as <-.
    destruct (IH ds' eq_refl) as (eol & -> & _ & Hall & Hend).
    exists eol. repeat split; [discriminate | | exact Hend].
    constructor; assumption.
  - destruct (re_dollar s) eqn:Hend; [|discriminate].
    intros H. injection H as <-.
    exists s. repeat split; [discriminate | | exact Hend].
    constructor; [exact Hc | constructor].
Qed.

Lemma re_digits_dollar_end eol :
  re_dollar eol = true -> re_digits_dollar unicode_decimal eol = None.
Proof.
  intros H. apply re_dollar_spec in H. destruct H as [-> | ->].
  - reflexivity.
  - cbn. unfold re_digit. rewrite newline_no_digit. reflexivity.
Qed.

Lemma re_digits_dollar_complete ds eol :
  ds <> [] ->
  Forall (fun c => re_digit unicode_decimal c = true) ds ->
  re_dollar eol = true ->
  re_digits_dollar unicode_decimal (ds ++ eol) = Some ds.
Proof.
  intros Hne Hall Hend. induction Hall as [|c ds Hc Hall IH];
    [contradiction|].
  cbn [Datatypes.app re_digits_dollar]. rewrite Hc.
  destruct ds as [|c' ds].
  - cbn [Datatypes.app]. rewrite (re_digits_dollar_end eol Hend), Hend.
    reflexivity.
  - rewrite IH by discriminate. reflexivity.
Qed.

Lemma digits_value_digits ds acc n :
  digits_value unicode_decimal ds acc = Some n ->
  Forall (fun c => re_digit unicode_decimal c = true) ds.
Proof.
  revert acc. induction ds as [|c ds IH]; intros acc H; [constructor|].
  cbn [digits_value] in H.
  destruct (unicode_decimal c) as [d|] eqn:Hd; [|discriminate].
  constructor; [unfold re_digit; rewrite Hd; reflexivity|].
  apply (IH _ H).
Qed.

Lemma digits_value_total ds acc :
  Forall (fun c => re_digit unicode_decimal c = true) ds ->
  exists n, digits_value unicode_decimal ds acc = Some n.
Proof.
  intros Hall. revert acc. induction Hall as [|c ds Hc Hall IH]; intros acc.
  - exists acc. reflexivity.
  - cbn [digits_value]. unfold re_digit in Hc.
    destruct (unicode_decimal c) as [d|]; [apply IH | discriminate].
Qed.

Lemma int_digits_value ds acc n :
  digits_value unicode_decimal ds acc = Some n ->
  int_digits unicode_decimal ds acc = Return n.
Proof.
  revert acc. induction ds as [|c ds IH]; intros acc; cbn.
  - intros H. injection H as ->. reflexivity.
  - destruct (unicode_decimal c) as [d|]; [apply IH | discriminate].
Qed.

(** The pattern of line 147 captures digits exactly on the keys that are
    the dated base, an underscore and a number. *)
Lemma pattern_match_has_suffix file_name key n :
  (exists ds, pattern_match unicode_decimal file_name key = Some (Some ds) /\
              digits_value unicode_decimal ds 0%Z = Some n) <->
  has_suffix unicode_decimal file_name key n.
Proof.
  unfold pattern_match, has_suffix, re_suffix. split.
  - intros (ds & Hm & Hv).
    destruct (strip_prefix file_name key) as [rest|] eqn:Hp; [|discriminate].
    apply strip_prefix_app in Hp. subst key.
    destruct rest as [|c rest].
    + cbn in Hm. discriminate.
    + destruct (c =? 95) eqn:Hc.
      * apply N.eqb_eq in Hc. subst c.
        destruct (re_digits_dollar unicode_decimal rest) as [ds'|] eqn:Hd.
        -- injection Hm as <-.
           destruct (re_digits_dollar_sound rest ds' Hd)
             as (eol & -> & Hne & _ & Hend).
           exists ds', eol. repeat split; try assumption.
           apply re_dollar_spec. exact Hend.
        -- destruct (re_dollar (95 :: rest)); discriminate.
      * destruct (re_dollar (c :: rest)); discriminate.
  - intros (ds & eol & -> & Hne & Hv & Hend).
    exists ds. split; [|exact Hv].
    replace (strip_prefix file_name (file_name ++ 95 :: ds ++ eol))
      with (Some (95 :: ds ++ eol))
      by (symmetry; apply strip_prefix_app; reflexivity).
    change (95 =? 95) with true. cbv iota.
    rewrite re_digits_dollar_complete; [reflexivity | exact Hne | |].
    + apply (digits_value_digits ds _ _ Hv).
    + apply re_dollar_spec. exact Hend.
Qed.

(** The comprehension of lines 151-152 cannot raise, and collects the
    numbers of exactly those keys. *)
Lemma existing_numbers_of_spec file_name contents :
  exists ns,
    existing_numbers_of unicode_decimal file_name contents = Return ns /\
    forall n, In n ns <->
              exists obj, In obj contents /\
                          has_suffix unicode_decimal file_name (Key obj) n.
Proof.
  induction contents as [|obj contents (ns & Hns & Hspec)].
  - exists []. split; [reflexivity|]. intros n. split; [intros []|].
    intros (obj & [] & _).
  - cbn [existing_numbers_of].
    destruct (pattern_match unicode_decimal file_name (Key obj))
      as [[g|]|] eqn:Hm.
    + assert (Hg : exists eol,
                g <> [] /\
                Forall (fun c => re_digit unicode_decimal c = true) g /\
                re_dollar eol = true).
      { unfold pattern_match, re_suffix in Hm.
        destruct (strip_prefix file_name (Key obj)) as [rest|];
          [|discriminate].
        destruct rest as [|c rest]; [cbn in Hm; discriminate|].
        destruct (c =? 95);
          [|destruct (re_dollar (c :: rest)); discriminate].
        destruct (re_digits_dollar unicode_decimal rest) as [ds|] eqn:Hd;
          [|destruct (re_dollar (c :: rest)); discriminate].
        injection Hm as <-.
        destruct (re_digits_dollar_sound rest ds Hd)
          as (eol & _ & Hne & Hall & Hend).
        exists eol. auto. }
      destruct Hg as (_ & Hne & Hall & _).
      destruct (digits_value_total g 0%Z Hall) as [n0 Hn0].
      rewrite (str_eqb_neq g [] Hne). cbn [negb].
      unfold int. destruct g as [|c g]; [contradiction|].
      rewrite (int_digits_value _ _ _ Hn0). cbn [bindo]. rewrite Hns.
      cbn [bindo]. exists (n0 :: ns). split; [reflexivity|].
      intros n. cbn [In]. rewrite Hspec. split.
      * intros [<-|(o & Ho & Hs)].
        -- exists obj. split; [left; reflexivity|].
           apply pattern_match_has_suffix. exists (c :: g). auto.
        -- exists o. auto.
      * intros (o & [<-|Ho] & Hs).
        -- left. apply pattern_match_has_suffix in Hs.
           destruct Hs as (ds & Hm' & Hv). rewrite Hm in Hm'.
           injection Hm' as <-. congruence.
        -- right. exists o. auto.
    + exists ns. split; [exact Hns|]. intros n. rewrite Hspec. split.
      * intros (o & Ho & Hs). exists o. cbn [In]. auto.
      * intros (o & [<-|Ho] & Hs); [|exists o; auto].
        apply pattern_match_has_suffix in Hs.
        destruct Hs as (ds & Hm' & _). congruence.
    + exists ns. split; [exact Hns|]. intros n. rewrite Hspec. split.
      * intros (o & Ho & Hs). exists o. cbn [In]. auto.
      * intros (o & [<-|Ho] & Hs); [|exists o; auto].
        apply pattern_match_has_suffix in Hs.
        destruct Hs as (ds & Hm' & _). congruence.
Qed.

End KeyResolver.

(** The resolver consults the digit table on the characters of the listed
    keys only. *)
Section TableAgreement.

Variables dec dec' : N -> option Z.






End TableAgreement.



(** ** Upload and report *)

Section Upload.

Variable E : env.
Variable unicode_decimal : N -> option Z.
Variables (bucket key_prefix file_name : pystr) (payload : bytes).
Variables (tr tr1 : trace) (key : pystr).

Hypothesis resolved :
  get_existing_filename E unicode_decimal bucket (key_prefix ++ file_name) tr
  = (Return key, tr1).

Lemma upload_put_raises e :
  put_object E bucket key payload = Raise e ->
  upload_file_to_s3 E unicode_decimal bucket key_prefix file_name payload tr
  = (Return false, tr1 ++ [EvPut bucket key payload; EvPrintExc e]).
Proof.
  intros Hput. unfold upload_file_to_s3, bind at 1. rewrite resolved.
  unfold try_except, bind at 1, s3_put_object. rewrite Hput.
  unfold bind, emit, ret. rewrite <- app_assoc. reflexivity.
Qed.

Lemma upload_put_succeeds :
  put_object E bucket key payload = Return tt ->
  upload_file_to_s3 E unicode_decimal bucket key_prefix file_name payload tr
  = (Return true, tr1 ++ [EvPut bucket key payload]).
Proof.
  intros Hput. unfold upload_file_to_s3, bind at 1. rewrite resolved.
  unfold try_except, bind at 1, s3_put_object. rewrite Hput.
  reflexivity.
Qed.

End Upload.

(** What [lambda_handler] does once the fetch has returned. *)
Lemma lambda_handler_after_fetch E unicode_decimal cfg tr0 weather_data tr :
  get_weather_data E (WEATHER_OPENAPI_URL cfg) (WEATHER_OPENAPI_PARAMS cfg)
    10 3 tr0 = (Return weather_data, tr) ->
  lambda_handler E unicode_decimal cfg tr0
  = bind (upload_file_to_s3 E unicode_decimal (bucket_name (AWS_CONFIG cfg))
            (prefix (AWS_CONFIG cfg)) file_key
            (List.map byte_of_N (Json.dumps weather_data)))
      (report) tr.
Proof.
  intros Hfetch. unfold lambda_handler, bind at 1. rewrite Hfetch.
  unfold bind at 1, lift. rewrite process_weather_data_total. reflexivity.
Qed.

(** C7.  Once the key is resolved, one [put_object] is attempted.  If it
    raises, [upload_file_to_s3] prints the exception and returns [False],
    and [lambda_handler] returns status 400; if it succeeds,
    [upload_file_to_s3] returns [True] and [lambda_handler] returns status
    200.  Either way the trace holds a single put. *)
Theorem upload_file_to_s3_outcome (E : env) (unicode_decimal : N -> option Z)
    (bucket key_prefix file_name : pystr) (payload : bytes)
    (tr tr1 : trace) (key : pystr) :
  get_existing_filename E unicode_decimal bucket (key_prefix ++ file_name) tr
  = (Return key, tr1) ->
  let upload :=
    upload_file_to_s3 E unicode_decimal bucket key_prefix file_name payload
      tr in
  let fetched cfg tr0 :=
    exists weather_data,
      get_weather_data E (WEATHER_OPENAPI_URL cfg)
        (WEATHER_OPENAPI_PARAMS cfg) 10 3 tr0 = (Return weather_data, tr) /\
      process_weather_data weather_data = Return payload /\
      bucket_name (AWS_CONFIG cfg) = bucket /\
      prefix (AWS_CONFIG cfg) = key_prefix /\ file_key = file_name in
  (forall e, put_object E bucket key payload = Raise e ->
     upload = (Return false, tr1 ++ [EvPut bucket key payload; EvPrintExc e])
     /\ put_calls [EvPut bucket key payload; EvPrintExc e] = 1%nat
     /\ forall cfg tr0, fetched cfg tr0 ->
          lambda_handler E unicode_decimal cfg tr0
          = (Return {| statusCode := 400;
                       body := Json.dumps (PStr (py "Upload Fail")) |},
             tr1 ++ [EvPut bucket key payload; EvPrintExc e;
                     EvPrint [0xC2E4; 0xD328]])) /\
  (put_object E bucket key payload = Return tt ->
     upload = (Return true, tr1 ++ [EvPut bucket key payload])
     /\ forall cfg tr0, fetched cfg tr0 ->
          lambda_handler E unicode_decimal cfg tr0
          = (Return {| statusCode := 200;
                       body := Json.dumps (PStr (py "Upload Success")) |},
             tr1 ++ [EvPut bucket key payload;
                     EvPrint [0xC131; 0xACF5]])).
Proof.
  intros Hkey upload fetched. split.
  - intros e Hput.
    pose proof (upload_put_raises E unicode_decimal bucket key_prefix
                  file_name payload tr tr1 key Hkey e Hput) as Hup.
    split; [exact Hup|]. split; [reflexivity|].
    intros cfg tr0 (wd & Hfetch & Hpayload & Hb & Hp & Hf).
    rewrite (lambda_handler_after_fetch E unicode_decimal cfg tr0 wd tr Hfetch).
    rewrite process_weather_data_total in Hpayload.
    injection Hpayload as Hpayload. rewrite Hpayload, Hb, Hp, Hf.
    unfold bind at 1. rewrite Hup.
    unfold report, bind, print, emit, ret. rewrite <- app_assoc. reflexivity.
  - intros Hput.
    pose proof (upload_put_succeeds E unicode_decimal bucket key_prefix
                  file_name payload tr tr1 key Hkey Hput) as Hup.
    split; [exact Hup|].
    intros cfg tr0 (wd & Hfetch & Hpayload & Hb & Hp & Hf).
    rewrite (lambda_handler_after_fetch E unicode_decimal cfg tr0 wd tr Hfetch).
    rewrite process_weather_data_total in Hpayload.
    injection Hpayload as Hpayload. rewrite Hpayload, Hb, Hp, Hf.
    unfold bind at 1. rewrite Hup.
    unfold report, bind, print, emit, ret. rewrite <- app_assoc. reflexivity.
Qed.

Lemma upload_file_to_s3_outcome_witness :
  lambda_handler (stub_env (fun _ => ok_response) [] (Raise access_denied))
    ascii_decimal stub_config []
  = (Return {| statusCode := 400;
               body := Json.dumps (PStr (py "Upload Fail")) |},
     [EvGet (WEATHER_OPENAPI_URL stub_config)
        (WEATHER_OPENAPI_PARAMS stub_config);
      EvList (py "bucket") (py "raw/lambda_weather_data_test_20240101");
      EvPut (py "bucket") (py "raw/lambda_weather_data_test_20240101_1")
        (List.map byte_of_N (Json.dumps sample_document));
      EvPrintExc access_denied;
      EvPrint [0xC2E4; 0xD328]]).
Proof.
  pose proof (upload_file_to_s3_outcome
                (stub_env (fun _ => ok_response) [] (Raise access_denied))
                ascii_decimal (py "bucket") (py "raw/") file_key
                (List.map byte_of_N (Json.dumps sample_document))
                [EvGet (WEATHER_OPENAPI_URL stub_config)
                   (WEATHER_OPENAPI_PARAMS stub_config)]
                [EvGet (WEATHER_OPENAPI_URL stub_config)
                   (WEATHER_OPENAPI_PARAMS stub_config);
                 EvList (py "bucket")
                   (py "raw/lambda_weather_data_test_20240101")]
                (py "raw/lambda_weather_data_test_20240101_1")
                eq_refl) as H.
  cbv zeta in H. destruct H as [Hfail _].
  destruct (Hfail access_denied eq_refl) as (_ & _ & Hhandler).
  rewrite (Hhandler stub_config []).
  - reflexivity.
  - exists sample_document. repeat split; reflexivity.
Defined.

(** C3.  On a run whose attempt [k + 1] succeeds and parses, the [for]
    loop is left by the [return] of line 63 with the decoded document
    itself, so lines 77-105 are not run; [get_weather_data] returns that
    document, and [lambda_handler] encodes and uploads it as it is. *)
Theorem successful_fetch_returns_raw_document (E : env) (url : pystr)
    (params : params_t) (max_retries interval : Z) (tr : trace)
    (r : nat -> request_exception) (k : nat) (res : response) (d : pyval) :
  (k < Z.to_nat max_retries)%nat ->
  (0 <= interval)%Z ->
  (forall i, (i < k)%nat ->
     failure_of (requests_get E (http_calls tr + i) url params)
     = Some (r (http_calls tr + i)%nat)) ->
  requests_get E (http_calls tr + k) url params = Return res ->
  raise_for_status res = None ->
  xmltodict_parse E (text res) = inl d ->
  let log := failed_attempts url params interval r (http_calls tr) k
             ++ [EvGet url params] in
  retry_loop E url params interval (Z.to_nat max_retries) None tr
  = (Return (Returned d), tr ++ log) /\
  get_weather_data E url params max_retries interval tr
  = (Return d, tr ++ log) /\
  process_weather_data d = Return (List.map byte_of_N (Json.dumps d)) /\
  (forall unicode_decimal cfg,
     WEATHER_OPENAPI_URL cfg = url -> WEATHER_OPENAPI_PARAMS cfg = params ->
     max_retries = 10%Z -> interval = 3%Z ->
     lambda_handler E unicode_decimal cfg tr
     = bind (upload_file_to_s3 E unicode_decimal
               (bucket_name (AWS_CONFIG cfg)) (prefix (AWS_CONFIG cfg))
               file_key (List.map byte_of_N (Json.dumps d)))
         report (tr ++ log)).
Proof.
  intros Hk Hi Hfail Hget Hok Hparse log.
  assert (Hn : Z.to_nat max_retries = (k + S (Z.to_nat max_retries - S k))%nat)
    by lia.
  pose proof (retry_loop_fail_then_success E url params interval r k
                (Z.to_nat max_retries - S k)%nat res None tr Hi Hfail Hget Hok)
    as Hloop.
  rewrite <- Hn, Hparse in Hloop. cbv zeta in Hloop.
  assert (Hfetch : get_weather_data E url params max_retries interval tr
                   = (Return d, tr ++ log))
    by (unfold get_weather_data, bind; rewrite Hloop; reflexivity).
  split; [exact Hloop|]. split; [exact Hfetch|].
  split; [apply process_weather_data_total|].
  intros dec cfg Hu Hp Hm Hint. subst url params max_retries interval.
  apply lambda_handler_after_fetch. exact Hfetch.
Qed.

Lemma successful_fetch_returns_raw_document_witness :
  get_weather_data
    (stub_env (fun n => match n with
                        | O => http_503
                        | 1%nat => timed_out
                        | _ => ok_response
                        end) [] (Return tt))
    (py "url") [] 10 3 []
  = (Return sample_document,
     [EvGet (py "url") []; EvPrint (py "Http Error: 503 Server Error");
      EvSleep 3;
      EvGet (py "url") []; EvPrint (py "Timeout Error: read timed out");
      EvSleep 3;
      EvGet (py "url") []]).
Proof.
  refine (proj1 (proj2
            (successful_fetch_returns_raw_document
               (stub_env (fun n => match n with
                                   | O => http_503
                                   | 1%nat => timed_out
                                   | _ => ok_response
                                   end) [] (Return tt))
               (py "url") [] 10 3 []
               (fun n => match n with
                         | O => http_error (py "503 Server Error")
                         | _ => {| is_HTTPError := false;
                                   is_ConnectionError := false;
                                   is_Timeout := true;
                                   exc_message := py "read timed out" |}
                         end)
               2 {| text := sample_xml; raise_for_status := None |}
               sample_document _ _ _ _ _ _))).
  - cbn. lia.
  - lia.
  - intros [|[|i]] Hi; [reflexivity | reflexivity | lia].
  - reflexivity.
  - reflexivity.
  - reflexivity.
Defined.



Lemma get_weather_data_retry_success_witness :
  get_weather_data
    (stub_env (fun n => match n with
                        | O => timed_out
                        | _ => ok_response
                        end) [] (Return tt))
    (py "url") [] 10 3 []
  = (Return sample_document,
     [EvGet (py "url") []; EvPrint (py "Timeout Error: read timed out");
      EvSleep 3;
      EvGet (py "url") []]).
Proof.
  refine (proj1 (proj2
            (get_weather_data_retry_success
               (stub_env (fun n => match n with
                                   | O => timed_out
                                   | _ => ok_response
                                   end) [] (Return tt))
               (py "url") [] 10 3 []
               (fun _ => {| is_HTTPError := false;
                            is_ConnectionError := false;
                            is_Timeout := true;
                            exc_message := py "read timed out" |})
               1 {| text := sample_xml; raise_for_status := None |}
               _ _ _ _ _)) sample_document _).
  - cbn. lia.
  - lia.
  - intros [|i] Hi; [reflexivity | lia].
  - reflexivity.
  - reflexivity.
  - reflexivity.
Defined.

(** ** The extraction block *)

Lemma dict_get_set d k v k' :
  dict_get (dict_set d k v) k'
  = if str_eqb k k' then Some v else dict_get d k'.
Proof.
  induction d as [|[k0 v0] d IH]; cbn [dict_set dict_get].
  - destruct (str_eqb k k'); reflexivity.
  - destruct (str_eqb k0 k) eqn:H0.
    + apply str_eqb_eq in H0. subst k0. cbn [dict_get].
      destruct (str_eqb k k'); reflexivity.
    + cbn [dict_get]. rewrite IH.
      destruct (str_eqb k0 k') eqn:H1; [|reflexivity].
      apply str_eqb_eq in H1. subst k0.
      destruct (str_eqb k k') eqn:H2; [|reflexivity].
      apply str_eqb_eq in H2. subst k'. rewrite str_eqb_refl in H0.
      discriminate.
Qed.

Lemma dict_set_keys d k v x :
  In x (List.map fst (dict_set d k v)) -> In x (List.map fst d) \/ x = k.
Proof.
  induction d as [|[k0 v0] d IH]; cbn [dict_set].
  - cbn. intros [<-|[]]. right. reflexivity.
  - destruct (str_eqb k0 k); cbn.
    + intros [<-|H]; tauto.
    + intros [<-|H]; [tauto|]. destruct (IH H); tauto.
Qed.

(** A category code is one of the seven, or none of them. *)
Lemma field_of_cases c :
  (exists cf, In cf category_fields /\ c = fst cf /\
              field_of c = Some (snd cf)) \/
  (field_of c = None /\
   forall cf, In cf category_fields -> str_eqb c (fst cf) = false).
Proof.
  unfold field_of, category_fields. cbn [List.find fst snd].
  repeat match goal with
         | |- context [if str_eqb c ?code then _ else _] =>
             let H := fresh "H" in
             destruct (str_eqb c code) eqn:H;
             [apply str_eqb_eq in H; left; eexists (code, _); split;
              [|split; [exact H | reflexivity]]; cbn; tauto|]
         end.
  right. split; [reflexivity|].
  intros cf Hcf. cbn in Hcf.
  repeat destruct Hcf as [<-|Hcf]; try assumption. destruct Hcf.
Qed.

(** The seven statements of the loop body fill the field of the item's
    category and nothing else. *)
Lemma item_body_spec item c v weather_data :
  item_fields item c v ->
  item_body item weather_data
  = Return (match field_of c with
            | Some f => dict_set weather_data f v
            | None => weather_data
            end).
Proof.
  intros (fields & -> & Hc & Hv).
  unfold item_body, field_of, category_fields.
  cbn [for_each List.find fst snd].
  unfold category_clause. cbn [subscript]. rewrite Hc, Hv.
  cbn [bindo eq_str fst snd].
  repeat match goal with
         | |- context [str_eqb c ?code] =>
             let H := fresh "H" in
             destruct (str_eqb c code) eqn:H;
             [apply str_eqb_eq in H; subst c; reflexivity|];
             cbn [bindo]
         end.
  reflexivity.
Qed.

Lemma field_step c v weather_data code field :
  In (code, field) category_fields ->
  dict_get (match field_of c with
            | Some f => dict_set weather_data f v
            | None => weather_data
            end) field
  = if str_eqb c code then Some v else dict_get weather_data field.
Proof.
  intros Hin.
  destruct (field_of_cases c) as [(cf & Hcf & -> & ->)|(-> & Hnone)].
  - rewrite dict_get_set. cbn in Hin, Hcf.
    repeat destruct Hcf as [<-|Hcf]; try contradiction;
      repeat destruct Hin as [Hin|Hin]; try contradiction;
      injection Hin as <- <-; reflexivity.
  - specialize (Hnone (code, field) Hin). cbn [fst] in Hnone.
    rewrite Hnone. reflexivity.
Qed.

(** The loop over the items: each recognized field ends up with the value
    of the last item of its category, and no other field appears. *)
Lemma for_each_item_body items rows :
  Forall2 (fun it cv => item_fields it (fst cv) (snd cv)) items rows ->
  forall weather_data,
  exists weather_data',
    for_each item_body items weather_data = Return weather_data' /\
    (forall code field, In (code, field) category_fields ->
       dict_get weather_data' field
       = match last_value code rows with
         | Some x => Some x
         | None => dict_get weather_data field
         end) /\
    (forall k, In k (List.map fst weather_data') ->
       In k (List.map fst weather_data) \/
       In k (List.map snd category_fields)).
Proof.
  induction 1 as [|item [c v] items rows Hitem Hrest IH]; intros wd.
  - exists wd. split; [reflexivity|]. split; [reflexivity | tauto].
  - cbn [fst snd] in Hitem. cbn [for_each].
    rewrite (item_body_spec item c v wd Hitem). cbn [bindo].
    destruct (IH (match field_of c with
                  | Some f => dict_set wd f v
                  | None => wd
                  end)) as (wd' & Hrun & Hget & Hkeys).
    exists wd'. split; [exact Hrun|]. split.
    + intros code field Hin. rewrite (Hget code field Hin).
      rewrite (field_step c v wd code field Hin). cbn [last_value].
      destruct (last_value code rows); [reflexivity|].
      destruct (str_eqb c code); reflexivity.
    + intros k Hk. destruct (Hkeys k Hk) as [Hk'|Hk']; [|tauto].
      destruct (field_of_cases c) as [(cf & Hcf & _ & Hf)|(Hf & _)];
        rewrite Hf in Hk'; [|tauto].
      destruct (dict_set_keys wd (snd cf) v k Hk') as [Hold| ->]; [tauto|].
      right. apply in_map. exact Hcf.
Qed.

(** Lines 77-105 on their own, given a bound document that holds an item
    list: the result is the snapshot, a mapping in which every recognized
    field holds the value of the last item of its category and which has
    no other field. *)
Lemma extract_weather_data_snapshot dict_data items rows :
  truthy dict_data = true ->
  lookup_path item_list_path dict_data = Some (PList items) ->
  Forall2 (fun it cv => item_fields it (fst cv) (snd cv)) items rows ->
  exists weather_data,
    extract_weather_data dict_data = Return (PDict weather_data) /\
    (forall code field, In (code, field) category_fields ->
       dict_get weather_data field = last_value code rows) /\
    (forall k, In k (List.map fst weather_data) ->
       In k (List.map snd category_fields)).
Proof.
  intros Htrue Hpath Hitems.
  destruct (for_each_item_body items rows Hitems [])
    as (wd & Hrun & Hget & Hkeys).
  exists wd. split; [|split].
  - unfold extract_weather_data. rewrite Htrue.
    unfold item_list_path in Hpath. cbn [lookup_path] in Hpath.
    destruct dict_data as [ | s | l | d0]; try discriminate.
    cbn [subscript].
    destruct (dict_get d0 (py "response")) as [[ | s | l | d1]|];
      try discriminate.
    cbn [bindo subscript].
    destruct (dict_get d1 (py "body")) as [[ | s | l | d2]|];
      try discriminate.
    cbn [bindo subscript].
    destruct (dict_get d2 (py "items")) as [[ | s | l | d3]|];
      try discriminate.
    cbn [bindo subscript].
    destruct (dict_get d3 (py "item")) as [it|]; [|discriminate].
    injection Hpath as ->. cbn [bindo iterate]. rewrite Hrun. reflexivity.
  - intros code field Hin. rewrite (Hget code field Hin).
    destruct (last_value code rows); reflexivity.
  - intros k Hk. destruct (Hkeys k Hk) as [[]|Hk']. exact Hk'.
Qed.

(** C4.  The decoded reply of the testable property, fetched at the first
    attempt: lines 77-105 would turn it into the seven-field snapshot, but
    [get_weather_data] has already returned the document itself at line
    63, and that document, not the snapshot, is what [lambda_handler]
    encodes and puts. *)
Theorem sample_fetch_yields_document_not_snapshot :
  let E := stub_env (fun _ => ok_response) [] (Return tt) in
  let url := WEATHER_OPENAPI_URL stub_config in
  let params := WEATHER_OPENAPI_PARAMS stub_config in
  lookup_path item_list_path sample_document = Some (PList sample_items) /\
  extract_weather_data sample_document = Return sample_snapshot /\
  get_weather_data E url params 10 3 [] = (Return sample_document,
                                          [EvGet url params]) /\
  sample_document <> sample_snapshot /\
  lambda_handler E ascii_decimal stub_config []
  = (Return {| statusCode := 200;
               body := Json.dumps (PStr (py "Upload Success")) |},
     [EvGet url params;
      EvList (py "bucket") (py "raw/lambda_weather_data_test_20240101");
      EvPut (py "bucket") (py "raw/lambda_weather_data_test_20240101_1")
        (List.map byte_of_N (Json.dumps sample_document));
      EvPrint [0xC131; 0xACF5]]) /\
  List.map byte_of_N (Json.dumps sample_document)
  <> List.map byte_of_N (Json.dumps sample_snapshot).
Proof.
  cbv zeta. repeat split; try reflexivity; discriminate.
Qed.





(** ** Listing a crowded prefix *)

(** C10.  A bucket holding the 1001 keys [..._0001] to [..._1001] of the
    day: the reply of [list_objects_v2] is truncated after 1000 keys, the
    code reads that one reply, takes 1000 for the maximum and resolves
    [..._1001], a key the bucket already holds (its number, 1001, is the
    true maximum). *)
Theorem crowded_prefix_resolves_existing_key :
  let dated_base := py "raw/lambda_weather_data_test_20240101" in
  let store := crowded_store dated_base in
  let E := stub_env (fun _ => ok_response) store (Return tt) in
  ascending store = true /\
  List.length (List.filter (fun k => startswith k dated_base) store)
  = 1001%nat /\
  IsTruncated (first_page store dated_base) = true /\
  get_existing_filename E ascii_decimal (py "bucket")
    (py "raw/lambda_weather_data_test") []
  = (Return (dated_base ++ py "_1001"), [EvList (py "bucket") dated_base]) /\
  In (dated_base ++ py "_1001") store /\
  has_suffix ascii_decimal dated_base (dated_base ++ py "_1001") 1001.
Proof.
  cbv zeta. split; [vm_compute; reflexivity|].
  split; [vm_compute; reflexivity|].
  split; [vm_compute; reflexivity|].
  split; [vm_compute; reflexivity|].
  split.
  - unfold crowded_store. apply in_map_iff. exists 1001%nat.
    split; [reflexivity | apply in_seq; lia].
  - exists (py "1001"), []. repeat split; try reflexivity.
    + discriminate.
    + left. reflexivity.
Qed.

(** * Further properties *)

(** ** The number written into a key and the number read back *)

Lemma ascii_decimal_ok : decimal_table_ok ascii_decimal.
Proof.
  split; [reflexivity|].
  intros c d. unfold ascii_decimal.
  destruct ((48 <=? c) && (c <=? 57)); [|discriminate].
  intros H. injection H as <-. lia.
Qed.

Lemma digits_value_ext dec dec' ds acc :
  (forall c, In c ds -> dec c = dec' c) ->
  digits_value dec ds acc = digits_value dec' ds acc.
Proof.
  revert acc. induction ds as [|c ds IH]; intros acc Hagree; [reflexivity|].
  cbn [digits_value]. rewrite (Hagree c (or_introl eq_refl)).
  destruct (dec' c); [|reflexivity].
  apply IH. intros x Hx. apply Hagree. right. exact Hx.
Qed.

Lemma str_of_uint_ascii d : ascii_only (str_of_uint d).
Proof.
  induction d; cbn [str_of_uint]; constructor; (lia || assumption).
Qed.

Lemma digits_value_str_of_uint_acc d :
  forall acc,
  digits_value ascii_decimal (str_of_uint d) (Zpos acc)
  = Some (Zpos (Pos.of_uint_acc d acc)).
Proof.
  induction d; intros acc; cbn [str_of_uint digits_value Pos.of_uint_acc];
    try reflexivity;
    match goal with
    | |- context [ascii_decimal ?c] =>
        change (ascii_decimal c) with (Some (Z.of_N (c - 48)))
    end;
    rewrite <- IHd; f_equal; lia.
Qed.

Lemma digits_value_str_of_uint d :
  digits_value ascii_decimal (str_of_uint d) 0%Z
  = Some (Z.of_N (Pos.of_uint d)).
Proof.
  induction d; cbn [str_of_uint digits_value Pos.of_uint];
    try reflexivity;
    match goal with
    | |- context [ascii_decimal ?c] =>
        change (ascii_decimal c) with (Some (Z.of_N (c - 48)))
    end;
    cbv beta iota;
    first [ exact IHd
          | match goal with
            | |- digits_value _ _ ?a
                 = Some (Z.of_N (N.pos (Pos.of_uint_acc _ ?q))) =>
                change a with (Zpos q);
                apply digits_value_str_of_uint_acc
            end ].
Qed.

(** [int(str(n)) == n] for a number that is not negative, and [str(n)]
    is a non-empty run of ASCII digits. *)
Lemma str_of_int_digits n :
  (0 <= n)%Z ->
  str_of_int n <> [] /\ ascii_only (str_of_int n) /\
  digits_value ascii_decimal (str_of_int n) 0%Z = Some n.
Proof.
  intros Hn. unfold str_of_int.
  pose proof (DecimalZ.of_to n) as Hof.
  destruct n as [|p|p]; [| |lia].
  - cbn. repeat split; [discriminate | repeat constructor; lia].
  - cbn [Z.to_int] in Hof |- *. cbn [Z.of_int] in Hof.
    unfold Z.of_uint in Hof.
    split; [|split].
    + pose proof (DecimalPos.Unsigned.to_uint_nonnil p) as Hnn.
      destruct (Pos.to_uint p); cbn; (contradiction || discriminate).
    + apply str_of_uint_ascii.
    + rewrite digits_value_str_of_uint. f_equal. exact Hof.
Qed.

Section Names.

Variable unicode_decimal : N -> option Z.
Hypothesis table_ok : decimal_table_ok unicode_decimal.

Lemma table_newline : unicode_decimal 10 = None.
Proof. destruct table_ok as [Ha _]. rewrite Ha by lia. reflexivity. Qed.

Lemma digits_value_nonneg ds :
  forall acc n, (0 <= acc)%Z ->
  digits_value unicode_decimal ds acc = Some n -> (0 <= n)%Z.
Proof.
  destruct table_ok as [_ Hpos].
  induction ds as [|c ds IH]; intros acc n Hacc; cbn [digits_value].
  - intros H. injection H as <-. exact Hacc.
  - destruct (unicode_decimal c) as [d|] eqn:Hd; [|discriminate].
    apply IH. specialize (Hpos c d Hd). lia.
Qed.

(** The name the resolver writes for number [n] is one its own pattern
    reads as number [n]. *)
Lemma written_name_has_suffix dated_base n :
  (0 <= n)%Z ->
  has_suffix unicode_decimal dated_base
    (dated_base ++ py "_" ++ str_of_int n) n.
Proof.
  intros Hn. destruct (str_of_int_digits n Hn) as (Hne & Hascii & Hval).
  exists (str_of_int n), []. rewrite app_nil_r.
  split; [reflexivity|]. split; [exact Hne|]. split; [|left; reflexivity].
  rewrite <- Hval. apply digits_value_ext.
  intros c Hc. destruct table_ok as [Ha _]. apply Ha.
  unfold ascii_only in Hascii. rewrite Forall_forall in Hascii.
  apply Hascii. exact Hc.
Qed.

End Names.

Lemma get_existing_filename_run E unicode_decimal bucket base_key tr resp ns :
  let dated_base := base_key ++ py "_" ++ strftime_Ymd (datetime_now E) in
  list_objects_v2 E bucket dated_base = Return resp ->
  existing_numbers_of unicode_decimal dated_base (contents_or_empty resp)
  = Return ns ->
  get_existing_filename E unicode_decimal bucket base_key tr
  = (Return (dated_base ++ py "_" ++ str_of_int (max_default ns 0 + 1)),
     tr ++ [EvList bucket dated_base]).
Proof.
  intros dated_base Hlist Hns. unfold get_existing_filename.
  fold dated_base. unfold bind at 1, s3_list_objects_v2.
  rewrite Hlist. unfold bind, lift. rewrite Hns. reflexivity.
Qed.

(** The pattern of line 147 and [int] read back what line 157 writes:
    the name written for a number [n >= 0] matches, group 1 is [str(n)]
    and [int] of it is [n]. *)
Theorem written_name_round_trip (unicode_decimal : N -> option Z)
    (file_name : pystr) (n : Z) :
  decimal_table_ok unicode_decimal ->
  (0 <= n)%Z ->
  pattern_match unicode_decimal file_name
    (file_name ++ py "_" ++ str_of_int n)
  = Some (Some (str_of_int n)) /\
  int unicode_decimal (str_of_int n) = Return n.
Proof.
  intros Hok Hn.
  destruct (str_of_int_digits n Hn) as (Hne & Hascii & Hval).
  assert (Hval' : digits_value unicode_decimal (str_of_int n) 0%Z = Some n).
  { rewrite <- Hval. apply digits_value_ext.
    intros c Hc. destruct Hok as [Ha _]. apply Ha.
    unfold ascii_only in Hascii. rewrite Forall_forall in Hascii.
    apply Hascii. exact Hc. }
  split.
  - unfold pattern_match.
    replace (strip_prefix file_name (file_name ++ py "_" ++ str_of_int n))
      with (Some (py "_" ++ str_of_int n))
      by (symmetry; apply strip_prefix_app; reflexivity).
    unfold re_suffix. change (py "_" ++ str_of_int n)
      with (95 :: str_of_int n).
    change (95 =? 95) with true. cbv iota.
    rewrite <- (app_nil_r (str_of_int n)) at 1.
    rewrite (re_digits_dollar_complete unicode_decimal
               (table_newline unicode_decimal Hok) (str_of_int n) []);
      [reflexivity | exact Hne | | reflexivity].
    apply (digits_value_digits unicode_decimal _ _ _ Hval').
  - unfold int. destruct (str_of_int n) as [|c s] eqn:Hs; [contradiction|].
    apply int_digits_value. exact Hval'.
Qed.

Lemma written_name_round_trip_witness :
  pattern_match ascii_decimal (py "weather_20240101")
    (py "weather_20240101" ++ py "_" ++ str_of_int 42)
  = Some (Some (str_of_int 42)) /\
  int ascii_decimal (str_of_int 42) = Return 42%Z.
Proof.
  apply (written_name_round_trip ascii_decimal (py "weather_20240101") 42).
  - split; [reflexivity|].
    intros c d. unfold ascii_decimal.
    destruct ((48 <=? c) && (c <=? 57)); [|discriminate].
    intros H. injection H as <-. lia.
  - lia.
Defined.

(** The numbers the comprehension collects from a reply, and their
    maximum: it is not negative and bounds the number of every listed key
    that carries one. *)
Lemma listed_numbers_bounded unicode_decimal dated_base contents :
  decimal_table_ok unicode_decimal ->
  exists ns,
    existing_numbers_of unicode_decimal dated_base contents = Return ns /\
    (0 <= max_default ns 0)%Z /\
    (forall obj m, In obj contents ->
       has_suffix unicode_decimal dated_base (Key obj) m ->
       (m <= max_default ns 0)%Z).
Proof.
  intros Hok.
  pose proof (table_newline unicode_decimal Hok) as Hnl.
  destruct (existing_numbers_of_spec unicode_decimal Hnl dated_base contents)
    as (ns & Hns & Hspec).
  exists ns. split; [exact Hns|]. split.
  - destruct (max_default_spec ns) as [[_ ->]|[Hin _]]; [lia|].
    apply Hspec in Hin. destruct Hin as (obj & _ & ds & eol & _ & _ & Hv & _).
    apply (digits_value_nonneg unicode_decimal Hok ds 0 _ ltac:(lia) Hv).
  - intros obj m Hobj Hs.
    assert (Hin : In m ns) by (apply Hspec; exists obj; auto).
    destruct (max_default_spec ns) as [[-> _]|[_ Hmax]];
      [destruct Hin | apply Hmax; exact Hin].
Qed.



(** Only which keys are listed matters to the resolver, not their order
    nor how often a key is repeated. *)
Theorem resolved_key_depends_on_key_set (E1 E2 : env)
    (unicode_decimal : N -> option Z) (bucket base_key : pystr)
    (resp1 resp2 : list_objects_response) (tr1 tr2 : trace) :
  unicode_decimal 10 = None ->
  datetime_now E1 = datetime_now E2 ->
  let dated_base := base_key ++ py "_" ++ strftime_Ymd (datetime_now E1) in
  list_objects_v2 E1 bucket dated_base = Return resp1 ->
  list_objects_v2 E2 bucket dated_base = Return resp2 ->
  (forall key, In key (List.map Key (contents_or_empty resp1)) <->
               In key (List.map Key (contents_or_empty resp2))) ->
  fst (get_existing_filename E1 unicode_decimal bucket base_key tr1)
  = fst (get_existing_filename E2 unicode_decimal bucket base_key tr2).
Proof.
  intros Hnl Hdate dated_base Hl1 Hl2 Hsame.
  destruct (existing_numbers_of_spec unicode_decimal Hnl dated_base
              (contents_or_empty resp1)) as (ns1 & Hns1 & Hspec1).
  destruct (existing_numbers_of_spec unicode_decimal Hnl dated_base
              (contents_or_empty resp2)) as (ns2 & Hns2 & Hspec2).
  rewrite (get_existing_filename_run E1 unicode_decimal bucket base_key tr1
             resp1 ns1 Hl1 Hns1).
  unfold dated_base in Hl2, Hns2. rewrite Hdate in Hl2, Hns2.
  rewrite (get_existing_filename_run E2 unicode_decimal bucket base_key tr2
             resp2 ns2 Hl2 Hns2).
  cbn [fst]. rewrite <- Hdate. fold dated_base.
  assert (Hiff : forall n, In n ns1 <-> In n ns2).
  { intros n. rewrite Hspec1.
    unfold dated_base in Hspec2. rewrite Hdate in Hspec2.
    rewrite Hspec2. rewrite <- Hdate. fold dated_base.
    split; intros (obj & Hobj & Hs).
    - assert (Hk : In (Key obj) (List.map Key (contents_or_empty resp2)))
        by (apply Hsame; apply in_map; exact Hobj).
      apply in_map_iff in Hk. destruct Hk as (obj' & Hkey & Hobj').
      exists obj'. rewrite Hkey. auto.
    - assert (Hk : In (Key obj) (List.map Key (contents_or_empty resp1)))
        by (apply Hsame; apply in_map; exact Hobj).
      apply in_map_iff in Hk. destruct Hk as (obj' & Hkey & Hobj').
      exists obj'. rewrite Hkey. auto. }
  assert (Hmax : max_default ns1 0%Z = max_default ns2 0%Z).
  { destruct (max_default_spec ns1) as [[Hn1 Hz1]|[Hin1 Hub1]];
      destruct (max_default_spec ns2) as [[Hn2 Hz2]|[Hin2 Hub2]].
    - congruence.
    - apply Hiff in Hin2. rewrite Hn1 in Hin2. destruct Hin2.
    - apply Hiff in Hin1. rewrite Hn2 in Hin1. destruct Hin1.
    - apply Z.le_antisymm.
      + apply Hub2. apply Hiff. exact Hin1.
      + apply Hub1. apply Hiff. exact Hin2. }
  rewrite Hmax. reflexivity.
Qed.

Lemma resolved_key_depends_on_key_set_witness :
  fst (get_existing_filename
         (stub_env (fun _ => ok_response)
            [py "weather_20240101_1"; py "weather_20240101_3"] (Return tt))
         ascii_decimal (py "bucket") (py "weather") [])
  = fst (get_existing_filename
           (stub_env (fun _ => ok_response)
              [py "weather_20240101_3"; py "weather_20240101_1";
               py "weather_20240101_3"] (Return tt))
           ascii_decimal (py "bucket") (py "weather")
           [EvPrint (py "earlier")]).
Proof.
  apply (resolved_key_depends_on_key_set
           (stub_env (fun _ => ok_response)
              [py "weather_20240101_1"; py "weather_20240101_3"] (Return tt))
           (stub_env (fun _ => ok_response)
              [py "weather_20240101_3"; py "weather_20240101_1";
               py "weather_20240101_3"] (Return tt))
           ascii_decimal (py "bucket") (py "weather")
           (first_page [py "weather_20240101_1"; py "weather_20240101_3"]
              (py "weather_20240101"))
           (first_page [py "weather_20240101_3"; py "weather_20240101_1";
                        py "weather_20240101_3"] (py "weather_20240101"))
           [] [EvPrint (py "earlier")]).
  - reflexivity.
  - reflexivity.
  - reflexivity.
  - reflexivity.
  - intros key. cbn. tauto.
Defined.

(** ** Any run of the fetch *)

Section AnyRun.

Variable E : env.
Variables (url : pystr) (params : params_t) (interval : Z).

(** An exception of [requests.get] that no clause names ends the call at
    once. *)
Lemma retry_loop_get_raises n dict_data tr e :
  requests_get E (http_calls tr) url params = Raise e ->
  is_request_exception e = false ->
  retry_loop E url params interval (S n) dict_data tr
  = (Raise e, tr ++ [EvGet url params]).
Proof.
  intros Hget He. cbn [retry_loop].
  unfold bind at 1, try_except, bind at 1, try_suite, bind at 1, http_get.
  rewrite Hget. destruct e; try discriminate; reflexivity.
Qed.

Lemma forallb_fetch_failed_attempt r :
  forallb fetch_event (failed_attempt url params interval r) = true.
Proof. reflexivity. Qed.

Lemma retry_loop_any_run n :
  forall dict_data tr,
  retry_loop_shape E url params n dict_data tr
    (retry_loop E url params interval n dict_data tr).
Proof.
  induction n as [|n IH]; intros dict_data tr.
  - exists []. cbn. rewrite app_nil_r. auto.
  - assert (Hfail : forall r,
              failure_of (requests_get E (http_calls tr) url params)
              = Some r ->
              retry_loop_shape E url params (S n) dict_data tr
                (retry_loop E url params interval (S n) dict_data tr)).
    { intros r Hf. destruct (Z.lt_ge_cases interval 0) as [Hneg|Hpos].
      - rewrite (retry_loop_negative_interval E url params interval tr n
                   dict_data r Hneg Hf).
        exists [EvGet url params; EvPrint (failure_line r)].
        cbn. repeat split; lia.
      - rewrite (retry_loop_failed_attempt E url params interval n
                   dict_data tr r Hpos Hf).
        destruct (IH dict_data (tr ++ failed_attempt url params interval r))
          as (log & Hsnd & Hev & Hcalls & Hout).
        exists (failed_attempt url params interval r ++ log).
        split; [rewrite Hsnd, app_assoc; reflexivity|].
        split; [rewrite forallb_app, Hev; reflexivity|].
        split; [rewrite http_calls_app, http_calls_failed_attempt; lia|].
        destruct (fst (retry_loop E url params interval n dict_data
                         (tr ++ failed_attempt url params interval r)))
          as [[v|d]|e].
        + destruct Hout as (res & log' & -> & Hget & Hok & Hparse).
          exists res, (failed_attempt url params interval r ++ log').
          rewrite <- app_assoc in Hget.
          repeat split; assumption.
        + destruct Hout as [-> Hn]. split; [reflexivity|].
          rewrite http_calls_app, http_calls_failed_attempt. lia.
        + exact Hout. }
    destruct (requests_get E (http_calls tr) url params) as [res|e] eqn:Hget.
    + destruct (raise_for_status res) as [msg|] eqn:Hst.
      * apply (Hfail (http_error msg)). cbn. rewrite Hst. reflexivity.
      * rewrite (retry_loop_success E url params interval n dict_data tr res
                   Hget Hst).
        exists [EvGet url params].
        destruct (xmltodict_parse E (text res)) as [d|msg] eqn:Hparse;
          cbn [fst snd]; repeat split; try reflexivity; try (cbn; lia).
        exists res, []. rewrite app_nil_r. auto.
    + destruct (is_request_exception e) eqn:He.
      * destruct e; try discriminate. apply (Hfail e). reflexivity.
      * rewrite (retry_loop_get_raises n dict_data tr e Hget He).
        exists [EvGet url params]. cbn [fst snd].
        repeat split; try reflexivity; try (cbn; lia). exact He.
Qed.

End AnyRun.

(** Whatever the HTTP layer and the XML decoder do, a call of
    [get_weather_data] adds only GETs, printed lines and sleeps to the
    trace, at most [max_retries] GETs among them.  A value it returns is
    the decoded body of the response to its last GET, which is its last
    event; an exception it raises is never a request-layer exception. *)
Theorem get_weather_data_every_run (E : env) (url : pystr)
    (params : params_t) (max_retries interval : Z) (tr : trace) :
  exists log,
    snd (get_weather_data E url params max_retries interval tr) = tr ++ log /\
    forallb fetch_event log = true /\
    (http_calls log <= Z.to_nat max_retries)%nat /\
    match fst (get_weather_data E url params max_retries interval tr) with
    | Return v => returned_by_parse E url params tr log v
    | Raise e => is_request_exception e = false
    end.
Proof.
  destruct (retry_loop_any_run E url params interval (Z.to_nat max_retries)
              None tr) as (log & Hsnd & Hev & Hcalls & Hout).
  exists log. unfold get_weather_data, bind.
  destruct (retry_loop E url params interval (Z.to_nat max_retries) None tr)
    as [[[v|d]|e] tr'] eqn:Hloop; cbn [fst snd] in *.
  - auto.
  - destruct Hout as [-> _]. cbn. auto.
  - auto.
Qed.

Section MoreFetch.

Variable E : env.
Variables (url : pystr) (params : params_t) (interval : Z).
Variable r : nat -> request_exception.

(** [k] failed attempts use up [k] rounds of the loop. *)
Lemma retry_loop_after_failures k :
  forall n dict_data tr,
  (0 <= interval)%Z ->
  (forall i, (i < k)%nat ->
     failure_of (requests_get E (http_calls tr + i) url params)
     = Some (r (http_calls tr + i)%nat)) ->
  retry_loop E url params interval (k + n) dict_data tr
  = retry_loop E url params interval n dict_data
      (tr ++ failed_attempts url params interval r (http_calls tr) k).
Proof.
  induction k as [|k IH]; intros n dict_data tr Hi Hfail.
  - cbn. rewrite app_nil_r. reflexivity.
  - cbn [Nat.add].
    rewrite (retry_loop_failed_attempt E url params interval (k + n)
               dict_data tr (r (http_calls tr)) Hi).
    2:{ specialize (Hfail 0%nat ltac:(lia)). rewrite Nat.add_0_r in Hfail.
        exact Hfail. }
    rewrite IH; [|exact Hi|].
    + rewrite http_calls_app, http_calls_failed_attempt.
      unfold failed_attempts. cbn [List.seq flat_map].
      rewrite <- app_assoc, Nat.add_1_r. reflexivity.
    + intros i Hlt. rewrite http_calls_app, http_calls_failed_attempt.
      replace (http_calls tr + 1 + i)%nat with (http_calls tr + S i)%nat
        by lia.
      apply Hfail. lia.
Qed.

End MoreFetch.

(** An exception of [requests.get] that is not a request-layer exception
    is not retried: after [k] failed attempts it leaves
    [get_weather_data] at once, with [k + 1] GETs made and neither a line
    printed nor a sleep for the last one. *)
Theorem get_weather_data_other_exception (E : env) (url : pystr)
    (params : params_t) (max_retries interval : Z) (tr : trace)
    (r : nat -> request_exception) (k : nat) (e : exn) :
  (k < Z.to_nat max_retries)%nat ->
  (0 <= interval)%Z ->
  (forall i, (i < k)%nat ->
     failure_of (requests_get E (http_calls tr + i) url params)
     = Some (r (http_calls tr + i)%nat)) ->
  requests_get E (http_calls tr + k) url params = Raise e ->
  is_request_exception e = false ->
  get_weather_data E url params max_retries interval tr
  = (Raise e,
     tr ++ failed_attempts url params interval r (http_calls tr) k
        ++ [EvGet url params]).
Proof.
  intros Hk Hi Hfail Hget He.
  assert (Hn : Z.to_nat max_retries = (k + S (Z.to_nat max_retries - S k))%nat)
    by lia.
  unfold get_weather_data, bind. rewrite Hn.
  rewrite (retry_loop_after_failures E url params interval r k _ None tr
             Hi Hfail).
  rewrite retry_loop_get_raises with (e := e).
  - rewrite <- app_assoc. reflexivity.
  - rewrite http_calls_app, http_calls_failed_attempts. exact Hget.
  - exact He.
Qed.

Lemma get_weather_data_other_exception_witness :
  get_weather_data
    (stub_env (fun n => match n with
                        | O => http_503
                        | _ => Raise (OtherException (py "MemoryError") [])
                        end) [] (Return tt))
    (py "url") [] 10 3 []
  = (Raise (OtherException (py "MemoryError") []),
     [EvGet (py "url") []; EvPrint (py "Http Error: 503 Server Error");
      EvSleep 3;
      EvGet (py "url") []]).
Proof.
  refine (get_weather_data_other_exception
            (stub_env (fun n => match n with
                                | O => http_503
                                | _ => Raise (OtherException
                                                (py "MemoryError") [])
                                end) [] (Return tt))
            (py "url") [] 10 3 []
            (fun _ => http_error (py "503 Server Error"))
            1 (OtherException (py "MemoryError") []) _ _ _ _ _).
  - cbn. lia.
  - lia.
  - intros [|i] Hi; [reflexivity | lia].
  - reflexivity.
  - reflexivity.
Defined.

(** The two numbers of the signature at their bounds: a [max_retries] of
    zero or less makes no request at all and goes straight to the unbound
    [dict_data] of line 77; a negative [interval] ends the call at the
    first failed attempt, with the [ValueError] of [time.sleep], however
    many retries were allowed. *)
Theorem get_weather_data_parameter_bounds (E : env) (url : pystr)
    (params : params_t) (max_retries interval : Z) (tr : trace) :
  ((max_retries <= 0)%Z ->
   get_weather_data E url params max_retries interval tr
   = (Raise (UnboundLocalError (py "dict_data")), tr)) /\
  (forall x,
     (1 <= max_retries)%Z -> (interval < 0)%Z ->
     failure_of (requests_get E (http_calls tr) url params) = Some x ->
     get_weather_data E url params max_retries interval tr
     = (Raise (ValueError (py "sleep length must be non-negative")),
        tr ++ [EvGet url params; EvPrint (failure_line x)])).
Proof.
  split.
  - intros Hm. unfold get_weather_data, bind.
    replace (Z.to_nat max_retries) with 0%nat by lia. reflexivity.
  - intros x Hm Hi Hf. unfold get_weather_data, bind.
    destruct (Z.to_nat max_retries) as [|n] eqn:Hn; [lia|].
    rewrite (retry_loop_negative_interval E url params interval tr n None x
               Hi Hf).
    reflexivity.
Qed.

Lemma get_weather_data_parameter_bounds_witness :
  get_weather_data (stub_env (fun _ => timed_out) [] (Return tt))
    (py "url") [] 10 (-1) []
  = (Raise (ValueError (py "sleep length must be non-negative")),
     [EvGet (py "url") []; EvPrint (py "Timeout Error: read timed out")]).
Proof.
  refine (proj2 (get_weather_data_parameter_bounds
                   (stub_env (fun _ => timed_out) [] (Return tt))
                   (py "url") [] 10 (-1) [])
            {| is_HTTPError := false; is_ConnectionError := false;
               is_Timeout := true; exc_message := py "read timed out" |}
            _ _ _).
  - lia.
  - lia.
  - reflexivity.
Defined.

(** ** Any run of the upload and of the handler *)

(** Whatever the listing answers, the resolver adds the one list call to
    the trace and nothing else. *)
Lemma get_existing_filename_trace E unicode_decimal bucket base_key tr :
  snd (get_existing_filename E unicode_decimal bucket base_key tr)
  = tr ++ [EvList bucket
             (base_key ++ py "_" ++ strftime_Ymd (datetime_now E))].
Proof.
  unfold get_existing_filename, bind at 1, s3_list_objects_v2.
  destruct (list_objects_v2 E bucket
              (base_key ++ py "_" ++ strftime_Ymd (datetime_now E)))
    as [resp|e]; [|reflexivity].
  unfold bind, lift.
  destruct (existing_numbers_of unicode_decimal
              (base_key ++ py "_" ++ strftime_Ymd (datetime_now E))
              (contents_or_empty resp)); reflexivity.
Qed.

Lemma get_existing_filename_list_raises E unicode_decimal bucket base_key
    tr e :
  list_objects_v2 E bucket
    (base_key ++ py "_" ++ strftime_Ymd (datetime_now E)) = Raise e ->
  get_existing_filename E unicode_decimal bucket base_key tr
  = (Raise e,
     tr ++ [EvList bucket
              (base_key ++ py "_" ++ strftime_Ymd (datetime_now E))]).
Proof.
  intros Hlist. unfold get_existing_filename, bind at 1, s3_list_objects_v2.
  rewrite Hlist. reflexivity.
Qed.

Lemma upload_resolver_raises E unicode_decimal bucket key_prefix file_name
    payload tr tr1 e :
  get_existing_filename E unicode_decimal bucket (key_prefix ++ file_name) tr
  = (Raise e, tr1) ->
  upload_file_to_s3 E unicode_decimal bucket key_prefix file_name payload tr
  = (Raise e, tr1).
Proof.
  intros Hres. unfold upload_file_to_s3, bind at 1. rewrite Hres.
  reflexivity.
Qed.

(** A listing that fails is fatal: the exception of [list_objects_v2]
    leaves [upload_file_to_s3] uncaught, before any put and without a
    line printed, and [lambda_handler] passes it on instead of reporting
    a status. *)
Theorem listing_failure_propagates (E : env)
    (unicode_decimal : N -> option Z) (bucket key_prefix file_name : pystr)
    (payload : bytes) (tr : trace) (e : exn) :
  let dated_base :=
    (key_prefix ++ file_name) ++ py "_" ++ strftime_Ymd (datetime_now E) in
  list_objects_v2 E bucket dated_base = Raise e ->
  upload_file_to_s3 E unicode_decimal bucket key_prefix file_name payload tr
  = (Raise e, tr ++ [EvList bucket dated_base]) /\
  (forall cfg tr0 weather_data,
     get_weather_data E (WEATHER_OPENAPI_URL cfg)
       (WEATHER_OPENAPI_PARAMS cfg) 10 3 tr0 = (Return weather_data, tr) ->
     bucket_name (AWS_CONFIG cfg) = bucket ->
     prefix (AWS_CONFIG cfg) = key_prefix -> file_key = file_name ->
     lambda_handler E unicode_decimal cfg tr0
     = (Raise e, tr ++ [EvList bucket dated_base])).
Proof.
  intros dated_base Hlist.
  assert (Hup : forall body,
            upload_file_to_s3 E unicode_decimal bucket key_prefix file_name
              body tr = (Raise e, tr ++ [EvList bucket dated_base])).
  { intros body. apply upload_resolver_raises.
    apply get_existing_filename_list_raises. exact Hlist. }
  split; [apply Hup|].
  intros cfg tr0 wd Hfetch Hb Hp Hf.
  rewrite (lambda_handler_after_fetch E unicode_decimal cfg tr0 wd tr Hfetch).
  rewrite Hb, Hp, Hf. unfold bind. rewrite Hup. reflexivity.
Qed.

Lemma listing_failure_propagates_witness :
  upload_file_to_s3
    {| requests_get := fun _ _ _ => ok_response;
       xmltodict_parse := stub_parse;
       datetime_now := {| year := 2024; month := 1; day := 1 |};
       list_objects_v2 := fun _ _ => Raise access_denied;
       put_object := fun _ _ _ => Return tt |}
    ascii_decimal (py "bucket") (py "raw/") (py "weather") [] []
  = (Raise access_denied,
     [EvList (py "bucket") (py "raw/weather_20240101")]).
Proof.
  refine (proj1 (listing_failure_propagates
                   {| requests_get := fun _ _ _ => ok_response;
                      xmltodict_parse := stub_parse;
                      datetime_now := {| year := 2024; month := 1;
                                         day := 1 |};
                      list_objects_v2 := fun _ _ => Raise access_denied;
                      put_object := fun _ _ _ => Return tt |}
                   ascii_decimal (py "bucket") (py "raw/") (py "weather")
                   [] [] access_denied _)).
  reflexivity.
Defined.

(** Every run of [lambda_handler], whatever the collaborators do.  After
    the events of the fetch (at most ten GETs), a run that returns has
    listed once and then put once, under the resolved key, the JSON bytes
    of the fetched document; its status is 200 when that put returned and
    400 when it raised, the exception being printed.  A run that raises
    has put nothing. *)
Theorem lambda_handler_every_run (E : env) (unicode_decimal : N -> option Z)
    (cfg : config) (tr : trace) :
  let url := WEATHER_OPENAPI_URL cfg in
  let params := WEATHER_OPENAPI_PARAMS cfg in
  let bucket := bucket_name (AWS_CONFIG cfg) in
  let dated_base := (prefix (AWS_CONFIG cfg) ++ file_key) ++ py "_"
                    ++ strftime_Ymd (datetime_now E) in
  let run := lambda_handler E unicode_decimal cfg tr in
  exists fetch_log,
    forallb fetch_event fetch_log = true /\
    (http_calls fetch_log <= 10)%nat /\
    match fst run with
    | Return result =>
        exists weather_data key,
          returned_by_parse E url params tr fetch_log weather_data /\
          let payload := List.map byte_of_N (Json.dumps weather_data) in
          let listed_and_put :=
            tr ++ fetch_log
               ++ [EvList bucket dated_base; EvPut bucket key payload] in
          (put_object E bucket key payload = Return tt /\
           statusCode result = 200%Z /\
           snd run = listed_and_put ++ [EvPrint [0xC131; 0xACF5]]) \/
          (exists e,
              put_object E bucket key payload = Raise e /\
              statusCode result = 400%Z /\
              snd run = listed_and_put
                        ++ [EvPrintExc e; EvPrint [0xC2E4; 0xD328]])
    | Raise _ =>
        snd run = tr ++ fetch_log \/
        snd run = tr ++ fetch_log ++ [EvList bucket dated_base]
    end.
Proof.
  intros url params bucket dated_base run.
  assert (Hfetched : exists log,
            snd (get_weather_data E url params 10 3 tr) = tr ++ log /\
            forallb fetch_event log = true /\
            (http_calls log <= 10)%nat /\
            match fst (get_weather_data E url params 10 3 tr) with
            | Return v => returned_by_parse E url params tr log v
            | Raise e => is_request_exception e = false
            end).
  { destruct (retry_loop_any_run E url params 3 10 None tr)
      as (log & Hsnd & Hev & Hcalls & Hout).
    exists log. unfold get_weather_data, bind.
    change (Z.to_nat 10) with 10%nat.
    destruct (retry_loop E url params 3 10 None tr)
      as [[[v|d]|e] tr'] eqn:Hloop; cbn [fst snd] in *.
    - auto.
    - destruct Hout as [-> _]. cbn. auto.
    - auto. }
  destruct Hfetched as (flog & Hsnd & Hev & Hcalls & Hout).
  exists flog. split; [exact Hev|]. split; [exact Hcalls|].
  destruct (get_weather_data E url params 10 3 tr) as [[wd|e] tr1] eqn:Hfetch;
    cbn [fst snd] in Hsnd, Hout; subst tr1.
  - assert (Hrun : run
                   = bind (upload_file_to_s3 E unicode_decimal bucket
                             (prefix (AWS_CONFIG cfg)) file_key
                             (List.map byte_of_N (Json.dumps wd)))
                       report (tr ++ flog))
      by (apply lambda_handler_after_fetch; exact Hfetch).
    pose proof (get_existing_filename_trace E unicode_decimal bucket
                  (prefix (AWS_CONFIG cfg) ++ file_key) (tr ++ flog))
      as Htrace.
    fold dated_base in Htrace.
    destruct (get_existing_filename E unicode_decimal bucket
                (prefix (AWS_CONFIG cfg) ++ file_key) (tr ++ flog))
      as [[key|e] tr2] eqn:Hkey; cbn [snd] in Htrace; subst tr2.
    + destruct (put_object E bucket key
                  (List.map byte_of_N (Json.dumps wd))) as [[]|e] eqn:Hput.
      * assert (Hval : run
                  = (Return {| statusCode := 200;
                               body := Json.dumps
                                         (PStr (py "Upload Success")) |},
                     ((tr ++ flog) ++ [EvList bucket dated_base])
                       ++ [EvPut bucket key
                             (List.map byte_of_N (Json.dumps wd));
                           EvPrint [0xC131; 0xACF5]])).
        { rewrite Hrun. unfold bind at 1.
          rewrite (upload_put_succeeds E unicode_decimal bucket
                     (prefix (AWS_CONFIG cfg)) file_key _ _ _ key Hkey Hput).
          unfold report, bind, print, emit, ret.
          rewrite <- !app_assoc. reflexivity. }
        rewrite Hval. cbn [fst snd statusCode].
        exists wd, key. split; [exact Hout|]. left.
        split; [exact Hput|]. split; [reflexivity|].
        rewrite <- !app_assoc. reflexivity.
      * assert (Hval : run
                  = (Return {| statusCode := 400;
                               body := Json.dumps
                                         (PStr (py "Upload Fail")) |},
                     ((tr ++ flog) ++ [EvList bucket dated_base])
                       ++ [EvPut bucket key
                             (List.map byte_of_N (Json.dumps wd));
                           EvPrintExc e;
                           EvPrint [0xC2E4; 0xD328]])).
        { rewrite Hrun. unfold bind at 1.
          rewrite (upload_put_raises E unicode_decimal bucket
                     (prefix (AWS_CONFIG cfg)) file_key _ _ _ key Hkey e Hput).
          unfold report, bind, print, emit, ret.
          rewrite <- !app_assoc. reflexivity. }
        rewrite Hval. cbn [fst snd statusCode].
        exists wd, key. split; [exact Hout|]. right. exists e.
        split; [exact Hput|]. split; [reflexivity|].
        rewrite <- !app_assoc. reflexivity.
    + assert (Hval : run
                     = (Raise e, (tr ++ flog) ++ [EvList bucket dated_base])).
      { rewrite Hrun. unfold bind at 1.
        rewrite (upload_resolver_raises E unicode_decimal bucket
                   (prefix (AWS_CONFIG cfg)) file_key _ _ _ e Hkey).
        reflexivity. }
      rewrite Hval. cbn [fst snd]. right. rewrite <- app_assoc. reflexivity.
  - assert (Hval : run = (Raise e, tr ++ flog))
      by (unfold run, lambda_handler, bind at 1; fold url params;
          rewrite Hfetch; reflexivity).
    rewrite Hval. cbn [fst snd]. left. reflexivity.
Qed.

(** The whole pipeline when nothing goes wrong: the first GET succeeds and
    parses, no key of the day is listed and the put returns.  The handler
    then reports 200 after exactly one GET, one list and one put, the put
    being the JSON bytes of the decoded document under the dated name
    with number 1. *)
Theorem lambda_handler_first_upload_of_the_day (E : env)
    (unicode_decimal : N -> option Z) (cfg : config) (tr : trace)
    (res : response) (d : pyval) (resp : list_objects_response) :
  let url := WEATHER_OPENAPI_URL cfg in
  let params := WEATHER_OPENAPI_PARAMS cfg in
  let bucket := bucket_name (AWS_CONFIG cfg) in
  let dated_base := (prefix (AWS_CONFIG cfg) ++ file_key) ++ py "_"
                    ++ strftime_Ymd (datetime_now E) in
  let payload := List.map byte_of_N (Json.dumps d) in
  requests_get E (http_calls tr) url params = Return res ->
  raise_for_status res = None ->
  xmltodict_parse E (text res) = inl d ->
  list_objects_v2 E bucket dated_base = Return resp ->
  contents_or_empty resp = [] ->
  put_object E bucket (dated_base ++ py "_1") payload = Return tt ->
  lambda_handler E unicode_decimal cfg tr
  = (Return {| statusCode := 200;
               body := Json.dumps (PStr (py "Upload Success")) |},
     tr ++ [EvGet url params; EvList bucket dated_base;
            EvPut bucket (dated_base ++ py "_1") payload;
            EvPrint [0xC131; 0xACF5]]).
Proof.
  intros url params bucket dated_base payload Hget Hok Hparse Hlist Hnone
    Hput.
  subst url params bucket payload.
  set (url := WEATHER_OPENAPI_URL cfg) in *.
  set (params := WEATHER_OPENAPI_PARAMS cfg) in *.
  assert (Hfetch : get_weather_data E url params 10 3 tr
                   = (Return d, tr ++ [EvGet url params])).
  { unfold get_weather_data, bind.
    change (Z.to_nat 10) with 10%nat.
    rewrite (retry_loop_success E url params 3 9 None tr res Hget Hok).
    rewrite Hparse. reflexivity. }
  assert (Hkey : get_existing_filename E unicode_decimal
                   (bucket_name (AWS_CONFIG cfg))
                   (prefix (AWS_CONFIG cfg) ++ file_key)
                   (tr ++ [EvGet url params])
                 = (Return (dated_base ++ py "_1"),
                    (tr ++ [EvGet url params])
                      ++ [EvList (bucket_name (AWS_CONFIG cfg)) dated_base])).
  { apply (get_existing_filename_run E unicode_decimal
             (bucket_name (AWS_CONFIG cfg))
             (prefix (AWS_CONFIG cfg) ++ file_key)
             (tr ++ [EvGet url params]) resp [] Hlist).
    fold dated_base. rewrite Hnone. reflexivity. }
  rewrite (lambda_handler_after_fetch E unicode_decimal cfg tr d
             (tr ++ [EvGet url params]) Hfetch).
  unfold bind at 1.
  rewrite (upload_put_succeeds E unicode_decimal _ _ _ _ _ _ _ Hkey Hput).
  unfold report, bind, print, emit, ret.
  rewrite <- !app_assoc. reflexivity.
Qed.

Lemma lambda_handler_first_upload_of_the_day_witness :
  lambda_handler (stub_env (fun _ => ok_response) [] (Return tt))
    ascii_decimal stub_config []
  = (Return {| statusCode := 200;
               body := Json.dumps (PStr (py "Upload Success")) |},
     [] ++ [EvGet (WEATHER_OPENAPI_URL stub_config)
              (WEATHER_OPENAPI_PARAMS stub_config);
            EvList (py "bucket")
              (py "raw/lambda_weather_data_test_20240101");
            EvPut (py "bucket")
              (py "raw/lambda_weather_data_test_20240101" ++ py "_1")
              (List.map byte_of_N (Json.dumps sample_document));
            EvPrint [0xC131; 0xACF5]]).
Proof.
  refine (lambda_handler_first_upload_of_the_day
            (stub_env (fun _ => ok_response) [] (Return tt))
            ascii_decimal stub_config []
            {| text := sample_xml; raise_for_status := None |}
            sample_document
            (first_page [] (py "raw/lambda_weather_data_test_20240101"))
            _ _ _ _ _ _); reflexivity.
Defined.

(** ** Reading back the payload of any document *)
















(** Whatever characters the document holds, every byte of the payload is
    an ASCII byte, one per character of the JSON text: what is not
    printable ASCII has been written as an escape. *)
Theorem process_weather_data_payload_ascii (weather_data : pyval) :
  exists payload,
    process_weather_data weather_data = Return payload /\
    Forall (fun b => Byte.to_N b < 128) payload /\
    List.length payload = List.length (Json.dumps weather_data).
Proof.
  eexists. split; [apply process_weather_data_total|]. split.
  - apply Forall_map. apply Forall_impl with (2 := dumps_ascii weather_data).
    intros c Hc. rewrite to_N_byte_of_N by lia. exact Hc.
  - apply length_map.
Qed.

(** ** More on lines 77-105 *)

Lemma extract_weather_data_snapshot_witness :
  exists weather_data,
    extract_weather_data sample_document = Return (PDict weather_data) /\
    (forall code field, In (code, field) category_fields ->
       dict_get weather_data field
       = last_value code
           [(py "PTY", PStr (py "0")); (py "REH", PStr (py "55"));
            (py "SKY", PStr (py "1")); (py "TMN", PStr (py "10"));
            (py "TMX", PStr (py "20")); (py "VEC", PStr (py "270"));
            (py "WSD", PStr (py "3")); (py "FOO", PStr (py "99"))]) /\
    (forall k, In k (List.map fst weather_data) ->
       In k (List.map snd category_fields)).
Proof.
  apply (extract_weather_data_snapshot sample_document sample_items).
  - reflexivity.
  - reflexivity.
  - unfold sample_items, forecast_item.
    repeat (apply Forall2_cons;
            [eexists; split; [reflexivity|]; split; reflexivity|]).
    apply Forall2_nil.
Defined.

(** The keys an item must hold.  An item without [category] stops the
    loop with [KeyError('category')]; an item of a category that is not
    one of the seven is passed over, whether or not it holds a
    [fcstValue]; an item of a recognized category without [fcstValue]
    stops the loop with [KeyError('fcstValue')]. *)
Theorem item_body_missing_keys (fields : pydict) (weather_data : pydict) :
  (dict_get fields (py "category") = None ->
   item_body (PDict fields) weather_data = Raise (KeyError (py "category")))
  /\
  (forall c,
     dict_get fields (py "category") = Some (PStr c) ->
     field_of c = None ->
     item_body (PDict fields) weather_data = Return weather_data) /\
  (forall c f,
     dict_get fields (py "category") = Some (PStr c) ->
     field_of c = Some f ->
     dict_get fields (py "fcstValue") = None ->
     item_body (PDict fields) weather_data
     = Raise (KeyError (py "fcstValue"))).
Proof.
  split; [|split].
  - intros Hc. unfold item_body, category_fields. cbn [for_each].
    unfold category_clause. cbn [subscript]. rewrite Hc. reflexivity.
  - intros c Hc Hnone.
    destruct (field_of_cases c) as [(cf & _ & _ & Hsome)|(_ & Hall)];
      [congruence|].
    unfold item_body.
    assert (Hloop : forall l wd,
              (forall cf, In cf l -> In cf category_fields) ->
              for_each (fun cf wd0 => category_clause (PDict fields) wd0 cf)
                l wd = Return wd).
    { induction l as [|cf l IH]; intros wd Hsub; [reflexivity|].
      cbn [for_each]. unfold category_clause at 1. cbn [subscript].
      rewrite Hc. cbn [bindo eq_str].
      rewrite (Hall cf (Hsub cf (or_introl eq_refl))). cbn [bindo].
      apply IH. intros cf' Hin. apply Hsub. right. exact Hin. }
    apply Hloop. auto.
  - intros c f Hc Hf Hv.
    unfold item_body, category_fields. cbn [for_each].
    unfold category_clause. cbn [subscript]. rewrite Hc, Hv.
    cbn [bindo eq_str fst snd].
    unfold field_of, category_fields in Hf. cbn [List.find fst snd] in Hf.
    repeat match goal with
           | |- context [str_eqb c ?code] =>
               let H := fresh "H" in
               destruct (str_eqb c code) eqn:H; [reflexivity|];
               cbn [bindo]
           end.
    discriminate.
Qed.

Lemma item_body_missing_keys_witness :
  item_body (PDict [(py "category", PStr (py "TMX"))]) []
  = Raise (KeyError (py "fcstValue")).
Proof.
  refine (proj2 (proj2 (item_body_missing_keys
                          [(py "category", PStr (py "TMX"))] []))
            (py "TMX") (py "tmx") _ _ _); reflexivity.
Defined.



(** ** The resolver against a bucket that fits in one reply *)

Lemma startswith_app p rest : startswith (p ++ rest) p = true.
Proof.
  unfold startswith.
  replace (strip_prefix p (p ++ rest)) with (Some rest)
    by (symmetry; apply strip_prefix_app; reflexivity).
  reflexivity.
Qed.

(** As long as the keys under the dated base fit in one reply of the
    listing (at most [MaxKeys] of them), the resolved key is a key the
    bucket does not hold yet, so the put that follows overwrites
    nothing. *)
Theorem resolved_key_not_in_bucket (E : env)
    (unicode_decimal : N -> option Z) (bucket base_key : pystr)
    (store : list pystr) (tr : trace) :
  decimal_table_ok unicode_decimal ->
  let dated_base := base_key ++ py "_" ++ strftime_Ymd (datetime_now E) in
  list_objects_v2 E bucket dated_base = Return (first_page store dated_base) ->
  (List.length (List.filter (fun k => startswith k dated_base) store)
   <= MaxKeys)%nat ->
  IsTruncated (first_page store dated_base) = false /\
  exists key,
    get_existing_filename E unicode_decimal bucket base_key tr
    = (Return key, tr ++ [EvList bucket dated_base]) /\
    ~ In key store.
Proof.
  intros Hok dated_base Hlist Hfit. split.
  - unfold first_page. cbn [IsTruncated]. apply Nat.ltb_ge. exact Hfit.
  - destruct (listed_numbers_bounded unicode_decimal dated_base
                (contents_or_empty (first_page store dated_base)) Hok)
      as (ns & Hns & Hpos & Hbound).
    exists (dated_base ++ py "_" ++ str_of_int (max_default ns 0 + 1)).
    split.
    + apply (get_existing_filename_run E unicode_decimal bucket base_key tr
               _ ns Hlist Hns).
    + intros Hin.
      assert (Hmatch : In (dated_base ++ py "_"
                             ++ str_of_int (max_default ns 0 + 1))
                         (List.filter (fun k => startswith k dated_base)
                            store)).
      { apply filter_In. split; [exact Hin | apply startswith_app]. }
      assert (Hlisted : In {| Key := dated_base ++ py "_"
                                       ++ str_of_int (max_default ns 0 + 1) |}
                          (contents_or_empty (first_page store dated_base))).
      { unfold contents_or_empty, first_page. cbn [Contents].
        destruct (List.filter (fun k => startswith k dated_base) store)
          as [|k0 matching] eqn:Hm; [destruct Hmatch|].
        apply in_map. rewrite firstn_all2 by exact Hfit. exact Hmatch. }
      pose proof (written_name_has_suffix unicode_decimal Hok dated_base
                    (max_default ns 0 + 1) ltac:(lia)) as Hs.
      specialize (Hbound _ _ Hlisted Hs). lia.
Qed.

Lemma resolved_key_not_in_bucket_witness :
  exists key,
    get_existing_filename
      (stub_env (fun _ => ok_response)
         [py "other_20240101_5"; py "weather_20240101_1";
          py "weather_20240101_2"] (Return tt))
      ascii_decimal (py "bucket") (py "weather") []
    = (Return key, [] ++ [EvList (py "bucket") (py "weather_20240101")]) /\
    ~ In key [py "other_20240101_5"; py "weather_20240101_1";
              py "weather_20240101_2"].
Proof.
  refine (proj2 (resolved_key_not_in_bucket
                   (stub_env (fun _ => ok_response)
                      [py "other_20240101_5"; py "weather_20240101_1";
                       py "weather_20240101_2"] (Return tt))
                   ascii_decimal (py "bucket") (py "weather")
                   [py "other_20240101_5"; py "weather_20240101_1";
                    py "weather_20240101_2"] [] _ _ _)).
  - split; [reflexivity|].
    intros c d. unfold ascii_decimal.
    destruct ((48 <=? c) && (c <=? 57)); [|discriminate].
    intros H. injection H as <-. lia.
  - reflexivity.
  - cbn. unfold MaxKeys. lia.
Defined.
